(** * setup-go: the runner-local cache (src/custom/backend.ts, src/custom/cache.ts)

    A shallow embedding of the two TypeScript modules that replace the
    hosted Actions cache by a directory on the runner, and the properties
    of key validation, lookup, archive life cycle and error policy that
    the design document states about them.

    The asynchronous functions are sequential chains of [await]s; they are
    embedded in a monad that threads the state of the outside world,
    propagates JavaScript exceptions and records every call to a
    collaborator (node's [fs], [@actions/cache]'s utilities and tar
    wrappers, [@actions/core]'s logger) together with its result.

    The file has three parts: the two modules and what they run on (the
    interface of the collaborators, and an in-memory runner with a POSIX
    [path] to execute scenarios); the vocabulary of the properties; the
    proofs, which hold for every implementation of the collaborators,
    followed by the scenarios. *)

From Stdlib Require Import ZArith String Ascii List Bool Lia.
From stdpp Require Import base option list strings gmap pretty.

Import ListNotations.
Local Open Scope Z_scope.
Local Open Scope string_scope.
Local Open Scope list_scope.

(* ===================================================================== *)
(** ** JavaScript values used by the two modules *)
(* ===================================================================== *)

(** An [Error] object, reduced to the two properties the code reads. *)
Record JsError : Type := MkJsError { err_name : string; err_message : string }.

(** [new Error(message)] *)
Definition Error (msg : string) : JsError :=
  {| err_name := "Error"; err_message := msg |}.

(** cache.ts 21-27: [class ValidationError extends Error], whose
    constructor sets [this.name = 'ValidationError']. *)
Definition ValidationError (msg : string) : JsError :=
  {| err_name := "ValidationError"; err_message := msg |}.

(** [ValidationError.name], the name of the class. *)
Definition ValidationError_name : string := "ValidationError".

(** [`${error}`]: [Error.prototype.toString]. *)
Definition js_toString (e : JsError) : string :=
  if String.eqb (err_name e) "" then err_message e
  else if String.eqb (err_message e) "" then err_name e
  else err_name e +:+ ": " +:+ err_message e.

(** Truthiness of a [string | undefined]: [undefined] and [''] are falsy. *)
Definition js_truthy (v : option string) : bool :=
  match v with
  | None => false
  | Some s => negb (String.eqb s "")
  end.

(** [`${dir}`] for a [string | undefined]. *)
Definition js_show (v : option string) : string :=
  match v with
  | None => "undefined"
  | Some s => s
  end.

(** [Math.round(n / d)] for a non-negative integer [n] and a power of
    two [d]: the quotient is exact in binary64 for every file size, and
    [Math.round] rounds halves upwards. *)
Definition Math_round_div (n d : Z) : Z := (2 * n + d) / (2 * d).

(** How a call completes. *)
Inductive Outcome (A : Type) : Type :=
| Return (a : A)
| Throw (e : JsError).
Arguments Return {A} a.
Arguments Throw {A} e.

(** [fs.Stats], reduced to what [getCacheFile] reads. *)
Record Stats : Type := MkStats { isFile : bool; size : Z }.

(** [CompressionMethod] of [@actions/cache]. *)
Inductive CompressionMethod : Type := Gzip | ZstdWithoutLong | Zstd.

(** [DownloadOptions] and [UploadOptions]; only [lookupOnly] is read. *)
Record DownloadOptions : Type := MkDownloadOptions { lookupOnly : option bool }.
Record UploadOptions : Type := MkUploadOptions { uploadChunkSize : option Z }.

(** [process.env], reduced to the variables the code reads.
    [GHRUNNER_CACHE] is tested for falsiness, so it may be unset here.  The
    two scope identifiers are read with the cast [as string] and handed
    to [path.join] as they are: the code takes them to be set, as the
    runner sets them for every job, and so does this record.
    [RUNNER_DEBUG] is what [core.isDebug()] compares with ['1']. *)
Record ProcessEnv : Type := MkEnv {
  GHRUNNER_CACHE : option string;
  GITHUB_REPOSITORY : string;
  GITHUB_REF_NAME : string;
  RUNNER_DEBUG : option string
}.

(* ===================================================================== *)
(** ** Observable events *)
(* ===================================================================== *)

Inductive LogLevel : Type := Debug | Info | Warning.

(** One event per call that leaves the two modules, with its result. *)
Inductive Event : Type :=
| EvLog (lvl : LogLevel) (msg : string)
| EvStat (p : string) (r : Outcome Stats)
| EvCopyFile (src dst : string) (r : Outcome unit)
| EvMkdir (p : string) (r : Outcome (option string))
| EvCompressionMethod (r : Outcome CompressionMethod)
| EvCreateTempDirectory (r : Outcome string)
| EvResolvePaths (paths : list string) (r : Outcome (list string))
| EvArchiveSize (p : string) (r : Outcome Z)
| EvCreateTar (folder : string) (paths : list string) (m : CompressionMethod)
    (r : Outcome unit)
| EvListTar (p : string) (m : CompressionMethod) (r : Outcome unit)
| EvExtractTar (p : string) (m : CompressionMethod) (r : Outcome unit)
| EvUnlink (p : string) (r : Outcome unit).

(** Calls of node's [fs] module; backend.ts is the only place that makes
    them, and all of them address the backing store. *)
Definition is_store_call (e : Event) : bool :=
  match e with
  | EvStat _ _ | EvCopyFile _ _ _ | EvMkdir _ _ => true
  | _ => false
  end.

(** The calls that change the backing store. *)
Definition is_store_write (e : Event) : bool :=
  match e with
  | EvCopyFile _ _ _ | EvMkdir _ _ => true
  | _ => false
  end.

Definition is_unlink (e : Event) : bool :=
  match e with
  | EvUnlink _ _ => true
  | _ => false
  end.

Definition is_log (e : Event) : bool :=
  match e with
  | EvLog _ _ => true
  | _ => false
  end.

(* ===================================================================== *)
(** ** The monad: world state, exceptions, event log *)
(* ===================================================================== *)

Record Run (W A : Type) : Type := MkRun {
  outcome : Outcome A;
  final : W;
  events : list Event
}.
Arguments MkRun {W A} outcome final events.
Arguments outcome {W A} r.
Arguments final {W A} r.
Arguments events {W A} r.

Definition M (W A : Type) : Type := W -> Run W A.

Definition ret {W A} (a : A) : M W A := fun w => MkRun (Return a) w [].

Definition throw {W A} (e : JsError) : M W A := fun w => MkRun (Throw e) w [].

(** [evs] happened, then the run [r]. *)
Definition prefixed {W A} (evs : list Event) (r : Run W A) : Run W A :=
  MkRun (outcome r) (final r) (evs ++ events r).
Arguments prefixed {W A} evs !r /.

Definition bind {W A B} (m : M W A) (k : A -> M W B) : M W B :=
  fun w =>
    match m w with
    | MkRun (Return a) w' evs => prefixed evs (k a w')
    | MkRun (Throw e) w' evs => MkRun (Throw e) w' evs
    end.

Declare Scope js_scope.
Delimit Scope js_scope with js.
Notation "'let*' x ':=' m 'in' k" := (bind m (fun x => k))
  (at level 10, x name, m at level 100, k at level 200) : js_scope.
Notation "m ';;;' k" := (bind m (fun _ => k))
  (at level 100, k at level 200, right associativity) : js_scope.
Local Open Scope js_scope.

(** A pure, fallible computation run inside the monad. *)
Definition lift {W A} (o : Outcome A) : M W A :=
  fun w => MkRun o w [].

(** [try { body } catch (error) { handler }] *)
Definition try_catch {W A} (body : M W A) (handler : JsError -> M W A) : M W A :=
  fun w =>
    match body w with
    | MkRun (Return a) w' evs => MkRun (Return a) w' evs
    | MkRun (Throw e) w' evs => prefixed evs (handler e w')
    end.

(** [try { body } finally { fin }]: [fin] runs on every exit of [body];
    the completion of [body] stands unless [fin] itself throws. *)
Definition try_finally {W A} (body : M W A) (fin : M W unit) : M W A :=
  fun w =>
    match body w with
    | MkRun o w' evs =>
        match fin w' with
        | MkRun (Return _) w'' evs' => MkRun o w'' (evs ++ evs')
        | MkRun (Throw e) w'' evs' => MkRun (Throw e) w'' (evs ++ evs')
        end
    end.

(** [for (const x of xs) body(x)] *)
Fixpoint for_of {W A} (xs : list A) (body : A -> M W unit) : M W unit :=
  match xs with
  | [] => ret tt
  | x :: xs' => body x ;;; for_of xs' body
  end.

(** A call to a collaborator: run it on the world, log call and result. *)
Definition call {W A} (ev : Outcome A -> Event) (op : W -> Outcome A * W) : M W A :=
  fun w => let '(r, w') := op w in MkRun r w' [ev r].

Definition emit {W} (e : Event) : M W unit := fun w => MkRun (Return tt) w [e].

(* ===================================================================== *)
(** ** Collaborators *)
(* ===================================================================== *)

(** What the two modules import: node's [path] and [fs], the utilities and
    tar wrappers of [@actions/cache], and [JSON.stringify].  The world [W]
    is whatever these act on (file system, child processes).  Every
    property below holds for every implementation of this interface. *)
Class Host (W : Type) : Type := {
  path_join : list string -> string;
  path_dirname : string -> string;
  (** [path.join] normalises its result and returns ['.'] instead of
      the empty string. *)
  path_join_nonempty : forall l, path_join l <> "";
  JSON_stringify : list string -> string;
  fs_stat : string -> W -> Outcome Stats * W;
  fs_copyFile : string -> string -> W -> Outcome unit * W;
  (** [fs.mkdir(p, {recursive: true, mode: '0775'})] *)
  fs_mkdir : string -> W -> Outcome (option string) * W;
  utils_getCompressionMethod : W -> Outcome CompressionMethod * W;
  utils_createTempDirectory : W -> Outcome string * W;
  utils_getCacheFileName : CompressionMethod -> string;
  utils_getArchiveFileSizeInBytes : string -> W -> Outcome Z * W;
  utils_resolvePaths : list string -> W -> Outcome (list string) * W;
  utils_unlinkFile : string -> W -> Outcome unit * W;
  tar_createTar : string -> list string -> CompressionMethod -> W -> Outcome unit * W;
  tar_listTar : string -> CompressionMethod -> W -> Outcome unit * W;
  tar_extractTar : string -> CompressionMethod -> W -> Outcome unit * W
}.

Section Program.

Context {W : Type} {H : Host W}.

(** The environment is read, never written, by the two modules. *)
Variable env : ProcessEnv.

(** *** [@actions/core] *)

Definition core_debug (msg : string) : M W unit := emit (EvLog Debug msg).
Definition core_info (msg : string) : M W unit := emit (EvLog Info msg).
Definition core_warning (msg : string) : M W unit := emit (EvLog Warning msg).

(** [core.isDebug()]: [process.env['RUNNER_DEBUG'] === '1'] *)
Definition core_isDebug : bool :=
  match RUNNER_DEBUG env with
  | Some v => String.eqb v "1"
  | None => false
  end.

(* ===================================================================== *)
(** ** backend.ts *)
(* ===================================================================== *)

(** backend.ts 5-16 *)
Definition getArchiveLocation : M W (option string) :=
  let cacheTopDir := GHRUNNER_CACHE env in
  if negb (js_truthy cacheTopDir) then
    core_warning "getArchiveLocation: cache not available" ;;;
    ret None
  else
    let repo := GITHUB_REPOSITORY env in
    let ref := GITHUB_REF_NAME env in
    let cacheDir := path_join [js_show cacheTopDir; repo; ref] in
    core_debug ("getArchiveLocation: " +:+ cacheDir) ;;;
    ret (Some cacheDir).

(** backend.ts 18-41 *)
Definition getCacheFile (key : string) : M W (option string) :=
  let* archiveLocation := getArchiveLocation in
  if negb (js_truthy archiveLocation) then
    ret None
  else
    let cacheFile := path_join [js_show archiveLocation; key] in
    try_catch
      (let* fileStat := call (EvStat cacheFile) (fs_stat cacheFile) in
       if isFile fileStat && (0 <? size fileStat)%Z then
         core_debug ("getCacheFile: found " +:+ cacheFile) ;;;
         ret (Some cacheFile)
       else
         core_debug ("getCacheFile: " +:+ cacheFile +:+ " not found") ;;;
         ret None)
      (fun error =>
         core_debug ("getCacheFile: " +:+ js_toString error) ;;;
         core_debug ("getCacheFile: " +:+ cacheFile +:+ " not found") ;;;
         ret None).

(** backend.ts 43-48 *)
Definition downloadCache (cacheFile archivePath : string) : M W unit :=
  call (EvCopyFile cacheFile archivePath) (fs_copyFile cacheFile archivePath).

(** backend.ts 50-67, [backend.saveCache] *)
Definition backend_saveCache (key archivePath : string) : M W unit :=
  let* archiveLocation := getArchiveLocation in
  if js_truthy archiveLocation then
    let cacheFile := path_join [js_show archiveLocation; key] in
    try_catch
      (let* dir := call (EvMkdir (path_dirname cacheFile))
                        (fs_mkdir (path_dirname cacheFile)) in
       core_debug ("saveCache: dir created: " +:+ js_show dir) ;;;
       call (EvCopyFile archivePath cacheFile) (fs_copyFile archivePath cacheFile) ;;;
       core_debug ("saveCache: saved " +:+ archivePath +:+ " to " +:+ cacheFile))
      (fun error =>
         core_warning ("saveCache: failed to save archive: " +:+ js_toString error))
  else
    ret tt.

(* ===================================================================== *)
(** ** cache.ts *)
(* ===================================================================== *)

(** cache.ts 10: [10 * Math.pow(1024, 3)], 10 GiB *)
Definition CacheFileSizeLimit : Z := 10 * 1024 ^ 3.

(** cache.ts 17-19: [!!process.env['GHRUNNER_CACHE']] *)
Definition isFeatureAvailable : bool := js_truthy (GHRUNNER_CACHE env).

(** cache.ts 29-35.  [paths] is a [string[]]; an array is never falsy, so
    [!paths] is false for every value of that type. *)
Definition checkPaths (paths : list string) : Outcome unit :=
  if Nat.eqb (length paths) 0 then
    Throw (ValidationError
      "Path Validation Error: At least one directory or file path is required")
  else Return tt.

(** [/^[^,]*$/.test(key)]: without the [m] flag the anchors are the two
    ends of the string, and the class [[^,]] matches every other
    character, line terminators included. *)
Definition regex_test_no_comma (key : string) : bool :=
  forallb (fun c => negb (Ascii.eqb c ",")) (list_ascii_of_string key).

(** cache.ts 37-49 *)
Definition checkKey (key : string) : Outcome unit :=
  if (512 <? String.length key)%nat then
    Throw (ValidationError
      ("Key Validation Error: " +:+ key +:+ " cannot be larger than 512 characters."))
  else if negb (regex_test_no_comma key) then
    Throw (ValidationError
      ("Key Validation Error: " +:+ key +:+ " cannot contain commas."))
  else Return tt.

(** [options?.lookupOnly] as a condition *)
Definition lookupOnly_requested (options : option DownloadOptions) : bool :=
  match options with
  | Some o => match lookupOnly o with Some b => b | None => false end
  | None => false
  end.

(** cache.ts 111-115.  [`${n}`] of an integer is its decimal notation
    ([pretty]) for every file size. *)
Definition cache_size_message (archiveFileSize : Z) : string :=
  "Cache Size: ~" +:+ pretty (Math_round_div archiveFileSize (1024 * 1024))
  +:+ " MB (" +:+ pretty archiveFileSize +:+ " B)".

(** cache.ts 187-191 *)
Definition over_limit_message (archiveFileSize : Z) : string :=
  "Cache size of ~" +:+ pretty (Math_round_div archiveFileSize (1024 * 1024))
  +:+ " MB (" +:+ pretty archiveFileSize +:+ " B) is over the "
  +:+ pretty (Math_round_div CacheFileSizeLimit (1024 * 1024))
  +:+ " MB (" +:+ pretty CacheFileSizeLimit +:+ " B) limit, not saving cache.".

(** cache.ts 128-133 and 206-211: the body of both [finally] blocks *)
Definition delete_archive (archivePath : string) : M W unit :=
  try_catch
    (call (EvUnlink archivePath) (utils_unlinkFile archivePath))
    (fun error => core_debug ("Failed to delete archive: " +:+ js_toString error)).

(** cache.ts 105-126: the [try]/[catch] of [restoreCache] *)
Definition restore_archive (cacheFile archivePath primaryKey : string)
    (compressionMethod : CompressionMethod) : M W (option string) :=
  try_catch
    (downloadCache cacheFile archivePath ;;;
     let* archiveFileSize :=
       call (EvArchiveSize archivePath) (utils_getArchiveFileSizeInBytes archivePath) in
     core_info (cache_size_message archiveFileSize) ;;;
     (if core_isDebug then
        call (EvListTar archivePath compressionMethod)
             (tar_listTar archivePath compressionMethod)
      else ret tt) ;;;
     call (EvExtractTar archivePath compressionMethod)
          (tar_extractTar archivePath compressionMethod) ;;;
     core_info "Cache restored successfully" ;;;
     ret (Some primaryKey))
    (fun error =>
       core_warning ("Failed to restore: " +:+ err_message error) ;;;
       ret None).

(** cache.ts 61-137 *)
Definition restoreCache (paths : list string) (primaryKey : string)
    (restoreKeys : option (list string)) (options : option DownloadOptions)
    (enableCrossOsArchive : bool) : M W (option string) :=
  lift (checkPaths paths) ;;;
  let restoreKeys := default [] restoreKeys in
  let keys := primaryKey :: restoreKeys in
  core_debug "Resolved Keys:" ;;;
  core_debug (JSON_stringify keys) ;;;
  if (10 <? length keys)%nat then
    throw (ValidationError "Key Validation Error: Keys are limited to a maximum of 10.")
  else
    for_of keys (fun key => lift (checkKey key)) ;;;
    let* cacheFile := getCacheFile primaryKey in
    if negb (js_truthy cacheFile) then
      core_debug ("Cache not found for key: " +:+ primaryKey) ;;;
      ret None
    else
      core_info ("Cache hit for: " +:+ primaryKey) ;;;
      if lookupOnly_requested options then
        core_info "Lookup only - skipping download" ;;;
        ret (Some primaryKey)
      else
        let* compressionMethod :=
          call EvCompressionMethod utils_getCompressionMethod in
        let* tmp := call EvCreateTempDirectory utils_createTempDirectory in
        let archivePath :=
          path_join [tmp; utils_getCacheFileName compressionMethod] in
        core_debug ("Archive Path: " +:+ archivePath) ;;;
        try_finally
          (restore_archive (js_show cacheFile) archivePath primaryKey compressionMethod)
          (delete_archive archivePath).

(** cache.ts 176-204: the [try]/[catch] of [saveCache]; its value is the
    value of the local [cacheId] when the block is left normally. *)
Definition store_archive (key archiveFolder archivePath : string)
    (cachePaths : list string) (compressionMethod : CompressionMethod)
    (cacheId : Z) : M W Z :=
  try_catch
    (call (EvCreateTar archiveFolder cachePaths compressionMethod)
          (tar_createTar archiveFolder cachePaths compressionMethod) ;;;
     (if core_isDebug then
        call (EvListTar archivePath compressionMethod)
             (tar_listTar archivePath compressionMethod)
      else ret tt) ;;;
     let* archiveFileSize :=
       call (EvArchiveSize archivePath) (utils_getArchiveFileSizeInBytes archivePath) in
     core_debug ("File Size: " +:+ pretty archiveFileSize) ;;;
     (if (CacheFileSizeLimit <? archiveFileSize)%Z then
        throw (Error (over_limit_message archiveFileSize))
      else ret tt) ;;;
     backend_saveCache key archivePath ;;;
     (* dummy cacheId, if we get there without raising, it means the
        cache has been saved *)
     ret 1)
    (fun error =>
       if String.eqb (err_name error) ValidationError_name then
         throw error
       else
         core_warning ("Failed to save: " +:+ err_message error) ;;;
         ret cacheId).

(** cache.ts 149-215 *)
Definition saveCache (paths : list string) (key : string)
    (options : option UploadOptions) (enableCrossOsArchive : bool) : M W Z :=
  lift (checkPaths paths) ;;;
  lift (checkKey key) ;;;
  let* compressionMethod := call EvCompressionMethod utils_getCompressionMethod in
  let cacheId := -1 in
  let* cachePaths := call (EvResolvePaths paths) (utils_resolvePaths paths) in
  core_debug "Cache Paths:" ;;;
  core_debug (JSON_stringify cachePaths) ;;;
  if Nat.eqb (length cachePaths) 0 then
    throw (Error
      "Path Validation Error: Path(s) specified in the action for caching do(es) not exist, hence no cache is being saved.")
  else
    let* archiveFolder := call EvCreateTempDirectory utils_createTempDirectory in
    let archivePath :=
      path_join [archiveFolder; utils_getCacheFileName compressionMethod] in
    core_debug ("Archive Path: " +:+ archivePath) ;;;
    let* cacheId :=
      try_finally
        (store_archive key archiveFolder archivePath cachePaths compressionMethod cacheId)
        (delete_archive archivePath) in
    ret cacheId.

End Program.

Arguments getArchiveLocation {W H} env.
Arguments getCacheFile {W H} env key.
Arguments downloadCache {W H} cacheFile archivePath.
Arguments backend_saveCache {W H} env key archivePath.
Arguments restoreCache {W H} env paths primaryKey restoreKeys options enableCrossOsArchive.
Arguments saveCache {W H} env paths key options enableCrossOsArchive.
Arguments restore_archive {W H} env cacheFile archivePath primaryKey compressionMethod.
Arguments store_archive {W H} env key archiveFolder archivePath cachePaths compressionMethod cacheId.
Arguments delete_archive {W H} archivePath.

(* ===================================================================== *)
(** ** node's POSIX [path] *)
(* ===================================================================== *)

Module Posix.

(** The segments of a path between its ['/']. *)
Fixpoint segments_from (cur s : string) : list string :=
  match s with
  | EmptyString => [cur]
  | String c s' =>
      if Ascii.eqb c "/" then cur :: segments_from "" s'
      else segments_from (cur +:+ String c "") s'
  end.

Definition segments (s : string) : list string := segments_from "" s.

(** [normalizeString]: drop empty and ['.'] segments, resolve ['..']
    against the segment before it.  [stack] is the result so far,
    innermost segment first. *)
Fixpoint normalize_segments (allowAboveRoot : bool) (stack segs : list string)
    : list string :=
  match segs with
  | [] => rev stack
  | seg :: segs' =>
      if String.eqb seg "" || String.eqb seg "." then
        normalize_segments allowAboveRoot stack segs'
      else if String.eqb seg ".." then
        match stack with
        | top :: below =>
            if String.eqb top ".." then
              normalize_segments allowAboveRoot
                (if allowAboveRoot then ".." :: stack else stack) segs'
            else normalize_segments allowAboveRoot below segs'
        | [] =>
            normalize_segments allowAboveRoot
              (if allowAboveRoot then [".."] else []) segs'
        end
      else normalize_segments allowAboveRoot (seg :: stack) segs'
  end.

Fixpoint join_with_slash (segs : list string) : string :=
  match segs with
  | [] => ""
  | [seg] => seg
  | seg :: segs' => seg +:+ "/" +:+ join_with_slash segs'
  end.

Definition starts_with_slash (s : string) : bool :=
  match s with
  | String c _ => Ascii.eqb c "/"
  | EmptyString => false
  end.

Fixpoint ends_with_slash (s : string) : bool :=
  match s with
  | EmptyString => false
  | String c EmptyString => Ascii.eqb c "/"
  | String _ s' => ends_with_slash s'
  end.

(** [path.posix.normalize] *)
Definition normalize (p : string) : string :=
  if String.eqb p "" then "."
  else
    let isAbsolute := starts_with_slash p in
    let trailingSeparator := ends_with_slash p in
    let body := join_with_slash
                  (normalize_segments (negb isAbsolute) [] (segments p)) in
    if String.eqb body "" then
      if isAbsolute then "/" else if trailingSeparator then "./" else "."
    else
      let body := if trailingSeparator then body +:+ "/" else body in
      if isAbsolute then "/" +:+ body else body.

(** [path.posix.join] *)
Definition join (args : list string) : string :=
  match List.filter (fun a => negb (String.eqb a "")) args with
  | [] => "."
  | parts => normalize (join_with_slash parts)
  end.

(** [path.posix.dirname], on the characters that follow the first, last one
    first: skip trailing separators, skip the base name, and what is left
    starts at the separator that ends the directory part. *)
Fixpoint skip_while (f : ascii -> bool) (l : list ascii) : list ascii :=
  match l with
  | c :: l' => if f c then skip_while f l' else l
  | [] => []
  end.

Definition dirname (p : string) : string :=
  match list_ascii_of_string p with
  | [] => "."
  | c0 :: rest =>
      let hasRoot := Ascii.eqb c0 "/" in
      let is_sep := fun c => Ascii.eqb c "/" in
      match skip_while (fun c => negb (is_sep c)) (skip_while is_sep (rev rest)) with
      | [] => if hasRoot then "/" else "."
      | _ :: before =>
          if hasRoot && Nat.eqb (length before) 0 then "//"
          else string_of_list_ascii (c0 :: rev before)
      end
  end.

End Posix.
(* ===================================================================== *)
(** ** A runner in memory *)
(* ===================================================================== *)

(** A small implementation of the collaborators, used to run the two
    modules on concrete scenarios: a file system that is a finite map
    from paths to nodes, a tar that writes an archive of a preset size,
    and switches that make writes or deletions fail. *)
Module Sim.

Inductive Node : Type := NFile (sz : Z) | NDir.

Record World : Type := MkWorld {
  files : gmap string Node;
  tar_size : Z;
  tar_fails : bool;
  locked : list string;
  unlink_fails : bool
}.

Definition with_files (w : World) (fs : gmap string Node) : World :=
  {| files := fs; tar_size := tar_size w; tar_fails := tar_fails w;
     locked := locked w; unlink_fails := unlink_fails w |}.

Definition is_locked (w : World) (p : string) : bool :=
  existsb (String.eqb p) (locked w).

Definition ENOENT (p : string) : JsError :=
  Error ("ENOENT: no such file or directory '" +:+ p +:+ "'").
Definition EACCES (p : string) : JsError :=
  Error ("EACCES: permission denied '" +:+ p +:+ "'").
Definition EISDIR (p : string) : JsError :=
  Error ("EISDIR: illegal operation on a directory '" +:+ p +:+ "'").
Definition EEXIST (p : string) : JsError :=
  Error ("EEXIST: file already exists '" +:+ p +:+ "'").

Definition stat (p : string) (w : World) : Outcome Stats * World :=
  match files w !! p with
  | Some (NFile sz) => (Return (MkStats true sz), w)
  | Some NDir => (Return (MkStats false 4096), w)
  | None => (Throw (ENOENT p), w)
  end.

Definition copyFile (src dst : string) (w : World) : Outcome unit * World :=
  if is_locked w dst then (Throw (EACCES dst), w)
  else
    match files w !! src, files w !! dst with
    | Some (NFile sz), Some NDir => (Throw (EISDIR dst), w)
    | Some (NFile sz), _ => (Return tt, with_files w (<[dst := NFile sz]> (files w)))
    | Some NDir, _ => (Throw (EISDIR src), w)
    | None, _ => (Throw (ENOENT src), w)
    end.

Definition mkdir (p : string) (w : World) : Outcome (option string) * World :=
  if is_locked w p then (Throw (EACCES p), w)
  else
    match files w !! p with
    | Some NDir => (Return None, w)
    | Some (NFile _) => (Throw (EEXIST p), w)
    | None => (Return (Some p), with_files w (<[p := NDir]> (files w)))
    end.

Definition getCompressionMethod (w : World) : Outcome CompressionMethod * World :=
  (Return Gzip, w).

Definition tempDirectory : string := "/tmp/a1b2".

Definition createTempDirectory (w : World) : Outcome string * World :=
  (Return tempDirectory, with_files w (<[tempDirectory := NDir]> (files w))).

(** [getCacheFileName] of [@actions/cache] *)
Definition getCacheFileName (m : CompressionMethod) : string :=
  match m with
  | Gzip => "cache.tgz"
  | _ => "cache.tzst"
  end.

Definition getArchiveFileSizeInBytes (p : string) (w : World) : Outcome Z * World :=
  match files w !! p with
  | Some (NFile sz) => (Return sz, w)
  | Some NDir => (Return 4096, w)
  | None => (Throw (ENOENT p), w)
  end.

Definition resolvePaths (paths : list string) (w : World)
    : Outcome (list string) * World :=
  (Return (List.filter (fun p => bool_decide (is_Some (files w !! p))) paths), w).

Definition unlinkFile (p : string) (w : World) : Outcome unit * World :=
  if unlink_fails w then (Throw (EACCES p), w)
  else
    match files w !! p with
    | Some (NFile _) => (Return tt, with_files w (delete p (files w)))
    | Some NDir => (Throw (EISDIR p), w)
    | None => (Throw (ENOENT p), w)
    end.

Definition createTar (folder : string) (paths : list string)
    (m : CompressionMethod) (w : World) : Outcome unit * World :=
  if tar_fails w then (Throw (Error "Tar failed with error: exit code 2"), w)
  else
    (Return tt,
     with_files w
       (<[Posix.join [folder; getCacheFileName m] := NFile (tar_size w)]> (files w))).

Definition readTar (p : string) (m : CompressionMethod) (w : World)
    : Outcome unit * World :=
  match files w !! p with
  | Some (NFile _) => (Return tt, w)
  | _ => (Throw (Error "Tar failed with error: exit code 2"), w)
  end.

(** [JSON.stringify] of an array of strings without characters that
    JSON escapes. *)
Definition dquote : string := String (Ascii.ascii_of_nat 34) EmptyString.

Fixpoint join_with_comma (l : list string) : string :=
  match l with
  | [] => ""
  | [x] => x
  | x :: l' => x +:+ "," +:+ join_with_comma l'
  end.

Definition stringify (l : list string) : string :=
  "[" +:+ join_with_comma (map (fun x => dquote +:+ x +:+ dquote) l) +:+ "]".

End Sim.

(** The in-memory runner as a [Host].  The one law of the interface,
    that [path.join] never returns the empty string, is proved for
    [Posix.join] here. *)
#[export, refine] Instance SimHost : Host Sim.World := {|
  path_join := Posix.join;
  path_dirname := Posix.dirname;
  path_join_nonempty := _;
  JSON_stringify := Sim.stringify;
  fs_stat := Sim.stat;
  fs_copyFile := Sim.copyFile;
  fs_mkdir := Sim.mkdir;
  utils_getCompressionMethod := Sim.getCompressionMethod;
  utils_createTempDirectory := Sim.createTempDirectory;
  utils_getCacheFileName := Sim.getCacheFileName;
  utils_getArchiveFileSizeInBytes := Sim.getArchiveFileSizeInBytes;
  utils_resolvePaths := Sim.resolvePaths;
  utils_unlinkFile := Sim.unlinkFile;
  tar_createTar := Sim.createTar;
  tar_listTar := Sim.readTar;
  tar_extractTar := Sim.readTar
|}.
Proof.
  intros l. unfold Posix.join.
  destruct (List.filter _ l) as [| part parts]; [discriminate |].
  generalize (Posix.join_with_slash (part :: parts)). intros p.
  unfold Posix.normalize.
  destruct (String.eqb p ""); [discriminate |].
  set (body := Posix.join_with_slash _).
  destruct (String.eqb_spec body "") as [-> | Hbody].
  - destruct (Posix.starts_with_slash p), (Posix.ends_with_slash p); discriminate.
  - destruct body as [| c body']; [congruence |].
    destruct (Posix.starts_with_slash p), (Posix.ends_with_slash p); discriminate.
Defined.

Module Scenario.

(** The environment of a job of [octo/hello] on [main], with and without
    a cache directory. *)
Definition env_on : ProcessEnv :=
  {| GHRUNNER_CACHE := Some "/cache"; GITHUB_REPOSITORY := "octo/hello";
     GITHUB_REF_NAME := "main"; RUNNER_DEBUG := None |}.

Definition env_off : ProcessEnv :=
  {| GHRUNNER_CACHE := None; GITHUB_REPOSITORY := "octo/hello";
     GITHUB_REF_NAME := "main"; RUNNER_DEBUG := None |}.

(** A work tree with [./dist], and a store of the given entries. *)
Definition world (store : list (string * Sim.Node)) : Sim.World :=
  {| Sim.files := list_to_map (("./dist", Sim.NDir) :: store);
     Sim.tar_size := 2048; Sim.tar_fails := false;
     Sim.locked := []; Sim.unlink_fails := false |}.

(** The same with an empty store, where tar produces one byte more than
    10 GiB. *)
Definition oversized : Sim.World :=
  {| Sim.files := list_to_map [("./dist", Sim.NDir)];
     Sim.tar_size := CacheFileSizeLimit + 1; Sim.tar_fails := false;
     Sim.locked := []; Sim.unlink_fails := false |}.

(** The same with an empty store that refuses the write of [v1]. *)
Definition read_only : Sim.World :=
  {| Sim.files := list_to_map [("./dist", Sim.NDir)];
     Sim.tar_size := 2048; Sim.tar_fails := false;
     Sim.locked := ["/cache/octo/hello/main/v1"]; Sim.unlink_fails := false |}.

(** A store with an entry for [v1], on a runner where the temporary
    archive cannot be deleted. *)
Definition undeletable : Sim.World :=
  {| Sim.files := list_to_map [("./dist", Sim.NDir);
                               ("/cache/octo/hello/main/v1", Sim.NFile 10)];
     Sim.tar_size := 2048; Sim.tar_fails := false;
     Sim.locked := []; Sim.unlink_fails := true |}.

(** Keys [k, k, ...], [n] of them. *)
Definition keys (n : nat) : list string := repeat "k" n.

(** A key of [n] characters. *)
Definition long_key (n : nat) : string := string_of_list_ascii (repeat "k"%char n).

End Scenario.

(* ===================================================================== *)
(** ** Vocabulary of the properties *)
(* ===================================================================== *)

(** [wp m w Q]: the run of [m] from [w] satisfies [Q]. *)
Definition wp {W A} (m : M W A) (w : W) (Q : Run W A -> Prop) : Prop := Q (m w).

Definition only_logs (evs : list Event) : Prop := forallb is_log evs = true.

Definition no_store_call (evs : list Event) : Prop :=
  forallb (fun e => negb (is_store_call e)) evs = true.

Definition no_store_write (evs : list Event) : Prop :=
  forallb (fun e => negb (is_store_write e)) evs = true.

Definition is_ValidationError {A} (o : Outcome A) : Prop :=
  exists msg, o = Throw (ValidationError msg).

Definition contains_comma (key : string) : Prop :=
  In ","%char (list_ascii_of_string key).

Definition invalid_key (key : string) : Prop :=
  (512 < String.length key)%nat \/ contains_comma key.

(** A run that ends in a [ValidationError], with log lines only. *)
Definition rejected {W A} (r : Run W A) (w : W) : Prop :=
  exists msg evs,
    r = MkRun (Throw (ValidationError msg)) w evs /\ only_logs evs.

(** The directory of the scope: cache root, repository, ref. *)
Definition archive_location {W} {H : Host W} (env : ProcessEnv) : string :=
  path_join [js_show (GHRUNNER_CACHE env); GITHUB_REPOSITORY env; GITHUB_REF_NAME env].

(** The address of a key in the scope. *)
Definition cache_address {W} {H : Host W} (env : ProcessEnv) (key : string) : string :=
  path_join [archive_location env; key].

(** What a failed deletion leaves in the log. *)
Definition deletion_log (o : Outcome unit) : list Event :=
  match o with
  | Return _ => []
  | Throw e => [EvLog Debug ("Failed to delete archive: " +:+ js_toString e)]
  end.

(** The events end with the one deletion of [archivePath]: nothing is
    unlinked before it, and nothing but the log line of a failed deletion
    comes after it. *)
Definition deleted_last (archivePath : string) (evs : list Event) : Prop :=
  exists pre o,
    evs = pre ++ EvUnlink archivePath o :: deletion_log o
    /\ forallb (fun e => negb (is_unlink e)) pre = true.

(** The same collaborators, with another [unlinkFile]. *)
Definition with_unlinkFile {W} (H : Host W)
    (unlinkFile : string -> W -> Outcome unit * W) : Host W :=
  {| path_join := path_join;
     path_dirname := path_dirname;
     path_join_nonempty := path_join_nonempty;
     JSON_stringify := JSON_stringify;
     fs_stat := fs_stat;
     fs_copyFile := fs_copyFile;
     fs_mkdir := fs_mkdir;
     utils_getCompressionMethod := utils_getCompressionMethod;
     utils_createTempDirectory := utils_createTempDirectory;
     utils_getCacheFileName := utils_getCacheFileName;
     utils_getArchiveFileSizeInBytes := utils_getArchiveFileSizeInBytes;
     utils_resolvePaths := utils_resolvePaths;
     utils_unlinkFile := unlinkFile;
     tar_createTar := tar_createTar;
     tar_listTar := tar_listTar;
     tar_extractTar := tar_extractTar |}.

(** The reading of the design document in which an archive over the
    limit makes [saveCache] throw: whenever the measured size is over
    10 GiB, the call ends in an exception and the store is not written. *)
Definition capacity_error_propagates {W} (r : Run W Z) : Prop :=
  forall p sz,
    In (EvArchiveSize p (Return sz)) (events r) ->
    CacheFileSizeLimit < sz ->
    (exists e, outcome r = Throw e) /\ no_store_write (events r).

(** *** Vocabulary of the further properties *)


(** The error a call ended with, if it ended with one. *)
Definition event_error (e : Event) : option JsError :=
  match e with
  | EvStat _ (Throw err) | EvCopyFile _ _ (Throw err) | EvMkdir _ (Throw err)
  | EvCompressionMethod (Throw err) | EvCreateTempDirectory (Throw err)
  | EvResolvePaths _ (Throw err) | EvArchiveSize _ (Throw err)
  | EvCreateTar _ _ _ (Throw err) | EvListTar _ _ (Throw err)
  | EvExtractTar _ _ (Throw err) | EvUnlink _ (Throw err) => Some err
  | _ => None
  end.

(** The calls inside the [try] block of [restoreCache]. *)
Definition is_transfer_step (e : Event) : bool :=
  match e with
  | EvCopyFile _ _ _ | EvArchiveSize _ _ | EvListTar _ _ _ | EvExtractTar _ _ _ => true
  | _ => false
  end.

(** The calls inside the [try] block of [saveCache] that [backend.saveCache]
    does not wrap in a [try] of its own. *)
Definition is_package_step (e : Event) : bool :=
  match e with
  | EvCreateTar _ _ _ _ | EvListTar _ _ _ | EvArchiveSize _ _ => true
  | _ => false
  end.


(** More runs of the in-memory runner. *)
Module Cases.


(** A store with an entry for [v1]. *)
Definition stored : Sim.World :=
  Scenario.world [("/cache/octo/hello/main/v1", Sim.NFile 10)].

(** The same, on a runner whose temporary archive cannot be written. *)
Definition no_room : Sim.World :=
  {| Sim.files := Sim.files stored;
     Sim.tar_size := 2048; Sim.tar_fails := false;
     Sim.locked := ["/tmp/a1b2/cache.tgz"]; Sim.unlink_fails := false |}.

(** What [saveCache] throws when no path exists. *)
Definition nothing_to_cache : JsError :=
  Error
    "Path Validation Error: Path(s) specified in the action for caching do(es) not exist, hence no cache is being saved.".

End Cases.

(* ===================================================================== *)
(** ** Reasoning about runs *)
(* ===================================================================== *)

Arguments String.append : simpl never.
Arguments pretty : simpl never.
Arguments Nat.ltb : simpl never.
Arguments Z.ltb : simpl never.
Arguments for_of : simpl never.

(** The rules below follow a run through the combinators, one case per
    way a call to a collaborator can complete. *)

Section Rules.

Context {W : Type}.
Implicit Types (w : W).

Lemma prefixed_nil {A} (r : Run W A) : prefixed [] r = r.
Proof. destruct r; reflexivity. Qed.

Lemma wp_ret {A} (a : A) w (Q : Run W A -> Prop) :
  Q (MkRun (Return a) w []) -> wp (ret a) w Q.
Proof. exact id. Qed.

Lemma wp_throw {A} (e : JsError) w (Q : Run W A -> Prop) :
  Q (MkRun (Throw e) w []) -> wp (throw e) w Q.
Proof. exact id. Qed.

Lemma wp_lift {A} (o : Outcome A) w (Q : Run W A -> Prop) :
  Q (MkRun o w []) -> wp (lift o) w Q.
Proof. exact id. Qed.

Lemma wp_emit (e : Event) w (Q : Run W unit -> Prop) :
  Q (MkRun (Return tt) w [e]) -> wp (emit e) w Q.
Proof. exact id. Qed.

Lemma wp_call {A} (ev : Outcome A -> Event) (op : W -> Outcome A * W) w
    (Q : Run W A -> Prop) :
  (forall o w', op w = (o, w') -> Q (MkRun o w' [ev o])) -> wp (call ev op) w Q.
Proof.
  unfold wp, call. intros HQ. destruct (op w) as [o w'] eqn:Hop. auto.
Qed.

Lemma wp_bind {A B} (m : M W A) (k : A -> M W B) w (Q : Run W B -> Prop) :
  wp m w (fun r =>
    match outcome r with
    | Return a => wp (k a) (final r) (fun r' => Q (prefixed (events r) r'))
    | Throw e => Q (MkRun (Throw e) (final r) (events r))
    end) ->
  wp (bind m k) w Q.
Proof.
  unfold wp, bind. destruct (m w) as [[a | e] w' evs]; simpl; auto.
Qed.

Lemma wp_try_catch {A} (body : M W A) (handler : JsError -> M W A) w
    (Q : Run W A -> Prop) :
  wp body w (fun r =>
    match outcome r with
    | Return a => Q (MkRun (Return a) (final r) (events r))
    | Throw e => wp (handler e) (final r) (fun r' => Q (prefixed (events r) r'))
    end) ->
  wp (try_catch body handler) w Q.
Proof.
  unfold wp, try_catch. destruct (body w) as [[a | e] w' evs]; simpl; auto.
Qed.

Lemma wp_try_finally {A} (body : M W A) (fin : M W unit) w (Q : Run W A -> Prop) :
  wp body w (fun r =>
    wp fin (final r) (fun r' =>
      Q (MkRun (match outcome r' with
                | Return _ => outcome r
                | Throw e => Throw e
                end)
               (final r') (events r ++ events r')))) ->
  wp (try_finally body fin) w Q.
Proof.
  unfold wp, try_finally. destruct (body w) as [o w' evs]; simpl.
  destruct (fin w') as [[[] | e] w'' evs']; simpl; auto.
Qed.

Lemma wp_if {A} (c : bool) (m1 m2 : M W A) w (Q : Run W A -> Prop) :
  (c = true -> wp m1 w Q) -> (c = false -> wp m2 w Q) ->
  wp (if c then m1 else m2) w Q.
Proof. destruct c; auto. Qed.

Lemma wp_known {A} (m : M W A) w (r : Run W A) (Q : Run W A -> Prop) :
  m w = r -> Q r -> wp m w Q.
Proof. unfold wp. intros ->. exact id. Qed.

End Rules.

(** Reduce a postcondition applied to a finished run. *)
Ltac run_simpl :=
  cbn beta iota zeta delta [outcome final events prefixed app].

Lemma only_logs_no_store_call evs : only_logs evs -> no_store_call evs.
Proof.
  unfold only_logs, no_store_call. rewrite !forallb_forall.
  intros Hl e He. specialize (Hl e He). destruct e; simpl in *; congruence.
Qed.

Lemma no_store_call_no_write evs : no_store_call evs -> no_store_write evs.
Proof.
  unfold no_store_write, no_store_call. rewrite !forallb_forall.
  intros Hl e He. specialize (Hl e He). destruct e; simpl in *; congruence.
Qed.

(* ===================================================================== *)
(** ** Key and path validation *)
(* ===================================================================== *)

Lemma regex_test_no_comma_false (key : string) :
  regex_test_no_comma key = false <-> contains_comma key.
Proof.
  unfold regex_test_no_comma, contains_comma.
  induction (list_ascii_of_string key) as [| c l IH]; simpl.
  - split; [discriminate | tauto].
  - destruct (Ascii.eqb_spec c ","); simpl.
    + subst. split; auto.
    + rewrite IH. split; [auto | intros [Hc | Hl]; congruence].
Qed.

Lemma checkKey_invalid (key : string) :
  invalid_key key -> is_ValidationError (checkKey key).
Proof.
  unfold checkKey, is_ValidationError. intros Hk.
  destruct (512 <? String.length key)%nat eqn:Hlen; [eauto |].
  destruct (regex_test_no_comma key) eqn:Hre; simpl; [| eauto].
  exfalso. apply Nat.ltb_ge in Hlen. destruct Hk as [Hk | Hk]; [lia |].
  apply regex_test_no_comma_false in Hk. congruence.
Qed.

Lemma checkKey_valid (key : string) :
  ~ invalid_key key -> checkKey key = Return tt.
Proof.
  unfold checkKey, invalid_key. intros Hk.
  destruct (512 <? String.length key)%nat eqn:Hlen.
  - apply Nat.ltb_lt in Hlen. tauto.
  - destruct (regex_test_no_comma key) eqn:Hre; simpl; [reflexivity |].
    apply regex_test_no_comma_false in Hre. tauto.
Qed.

Lemma checkKey_outcome (key : string) :
  checkKey key = Return tt \/ is_ValidationError (checkKey key).
Proof.
  unfold checkKey, is_ValidationError.
  destruct (512 <? String.length key)%nat; [eauto |].
  destruct (regex_test_no_comma key); simpl; eauto.
Qed.

Section Validation.

Context {W : Type} {H : Host W}.
Implicit Types (w : W) (env : ProcessEnv).

Lemma for_of_cons {A} (x : A) (xs : list A) (body : A -> M W unit) :
  for_of (x :: xs) body = bind (body x) (fun _ => for_of xs body).
Proof. reflexivity. Qed.

Lemma for_of_checkKey_cons (k : string) (keys : list string) w :
  for_of (W:=W) (k :: keys) (fun k => lift (checkKey k)) w
  = match checkKey k with
    | Return _ => for_of keys (fun k => lift (checkKey k)) w
    | Throw e => MkRun (Throw e) w []
    end.
Proof.
  rewrite for_of_cons. unfold bind, lift.
  destruct (checkKey k); [apply prefixed_nil | reflexivity].
Qed.

(** The loop of cache.ts 78-80 is pure: it ends normally or with a
    [ValidationError], without a call or a log line. *)
Lemma for_of_checkKey_pure (keys : list string) w :
  for_of (W:=W) keys (fun k => lift (checkKey k)) w = MkRun (Return tt) w []
  \/ exists msg,
       for_of (W:=W) keys (fun k => lift (checkKey k)) w
       = MkRun (Throw (ValidationError msg)) w [].
Proof.
  induction keys as [| k keys IH]; [left; reflexivity |].
  rewrite for_of_checkKey_cons.
  destruct (checkKey_outcome k) as [Hok | [msg Hbad]].
  - rewrite Hok. exact IH.
  - rewrite Hbad. eauto.
Qed.

(** It stops at the first key that fails. *)
Lemma for_of_checkKey_invalid (keys : list string) (key : string) w :
  In key keys -> invalid_key key ->
  exists msg,
    for_of (W:=W) keys (fun k => lift (checkKey k)) w
    = MkRun (Throw (ValidationError msg)) w [].
Proof.
  intros Hin Hk. induction keys as [| k keys IH]; [destruct Hin |].
  rewrite for_of_checkKey_cons.
  destruct (checkKey_outcome k) as [Hok | [msg Hbad]].
  - rewrite Hok.
    destruct Hin as [-> | Hin]; [| auto].
    apply checkKey_invalid in Hk. destruct Hk as [msg Hmsg]. congruence.
  - rewrite Hbad. eauto.
Qed.

Lemma for_of_checkKey_valid (keys : list string) w :
  Forall (fun k => ~ invalid_key k) keys ->
  for_of (W:=W) keys (fun k => lift (checkKey k)) w = MkRun (Return tt) w [].
Proof.
  induction 1 as [| k keys Hk _ IH]; [reflexivity |].
  rewrite for_of_checkKey_cons, (checkKey_valid k Hk). exact IH.
Qed.

End Validation.

(* ===================================================================== *)
(** ** The backing store: where and whether *)
(* ===================================================================== *)

Section Backend.

Context {W : Type} {H : Host W}.
Implicit Types (w : W) (env : ProcessEnv).

Lemma js_truthy_path_join (l : list string) : js_truthy (Some (path_join l)) = true.
Proof.
  unfold js_truthy. destruct (String.eqb_spec (path_join l) "") as [He | _].
  - destruct (path_join_nonempty l He).
  - reflexivity.
Qed.

Lemma js_truthy_archive_location env :
  js_truthy (Some (archive_location env)) = true.
Proof. apply js_truthy_path_join. Qed.

Lemma getArchiveLocation_off env w :
  isFeatureAvailable env = false ->
  getArchiveLocation env w
  = MkRun (Return None) w [EvLog Warning "getArchiveLocation: cache not available"].
Proof.
  unfold isFeatureAvailable, getArchiveLocation. intros ->. reflexivity.
Qed.

Lemma getArchiveLocation_on env w :
  isFeatureAvailable env = true ->
  getArchiveLocation env w
  = MkRun (Return (Some (archive_location env))) w
      [EvLog Debug ("getArchiveLocation: " +:+ archive_location env)].
Proof.
  unfold isFeatureAvailable, getArchiveLocation. intros ->. reflexivity.
Qed.

End Backend.

(** One step along the program text. *)
Ltac cond_known :=
  cbn [js_show];
  repeat rewrite js_truthy_path_join;
  repeat rewrite js_truthy_archive_location;
  cbn [negb js_truthy andb];
  first [reflexivity | assumption].

Ltac wp_step :=
  lazymatch goal with
  | |- wp (bind _ _) _ _ => apply wp_bind
  | |- wp (ret _) _ _ => apply wp_ret; run_simpl
  | |- wp (throw _) _ _ => apply wp_throw; run_simpl
  | |- wp (lift (checkPaths (_ :: _))) _ _ =>
      apply wp_lift; cbn [checkPaths length Nat.eqb]; run_simpl
  | |- wp (lift (checkKey ?k)) _ _ =>
      let Hk := fresh "Hkey" in
      let msg := fresh "msg" in
      apply wp_lift;
      destruct (checkKey_outcome k) as [Hk | [msg Hk]]; rewrite Hk; run_simpl
  | |- wp (lift _) _ _ => apply wp_lift; run_simpl
  | |- wp (emit _) _ _ => apply wp_emit; run_simpl
  | |- wp (core_debug _) _ _ => apply wp_emit; run_simpl
  | |- wp (core_info _) _ _ => apply wp_emit; run_simpl
  | |- wp (core_warning _) _ _ => apply wp_emit; run_simpl
  | |- wp (for_of ?keys (fun k => lift (checkKey k))) ?w _ =>
      let Hv := fresh "Hkeys" in
      let msg := fresh "msg" in
      destruct (for_of_checkKey_pure keys w) as [Hv | [msg Hv]];
      (eapply wp_known; [exact Hv |]); run_simpl
  | |- wp (getArchiveLocation ?env) ?w _ =>
      first
        [ eapply wp_known; [apply getArchiveLocation_off; eassumption |]
        | eapply wp_known; [apply getArchiveLocation_on; eassumption |] ];
      run_simpl
  | |- wp (call _ _) _ _ =>
      let o := fresh "o" in
      let w' := fresh "w" in
      let Hop := fresh "Hop" in
      apply wp_call; intros o w' Hop; run_simpl;
      destruct o as [? | ?]; run_simpl
  | |- wp (try_catch _ _) _ _ => apply wp_try_catch
  | |- wp (try_finally _ _) _ _ => apply wp_try_finally
  | |- wp (if ?c then _ else _) _ _ =>
      first
        [ replace c with true by (symmetry; cond_known)
        | replace c with false by (symmetry; cond_known)
        | let Hc := fresh "Hc" in
          apply wp_if; intros Hc ]
  | |- wp (getCacheFile _ _) _ _ => unfold getCacheFile
  | |- wp (downloadCache _ _) _ _ => unfold downloadCache
  | |- wp (backend_saveCache _ _ _) _ _ => unfold backend_saveCache
  | |- wp (delete_archive _) _ _ => unfold delete_archive
  | |- wp (restore_archive _ _ _ _ _) _ _ => unfold restore_archive
  | |- wp (store_archive _ _ _ _ _ _ _) _ _ => unfold store_archive
  end.

Ltac wp_run := repeat wp_step.

(* ===================================================================== *)
(** ** Validation comes first *)
(* ===================================================================== *)

Section ValidationClaims.

Context {W : Type} {H : Host W}.
Implicit Types (w : W) (env : ProcessEnv).

Lemma rejected_spec {A} (r : Run W A) w :
  rejected r w ->
  is_ValidationError (outcome r) /\ no_store_call (events r) /\ final r = w.
Proof.
  intros (msg & evs & -> & Hlogs). simpl.
  split; [exists msg; reflexivity |].
  split; [apply only_logs_no_store_call, Hlogs | reflexivity].
Qed.

Lemma restoreCache_no_paths env w primaryKey restoreKeys options x :
  restoreCache env [] primaryKey restoreKeys options x w
  = MkRun (Throw (ValidationError
      "Path Validation Error: At least one directory or file path is required"))
      w [].
Proof. reflexivity. Qed.

Lemma saveCache_no_paths env w key options x :
  saveCache env [] key options x w
  = MkRun (Throw (ValidationError
      "Path Validation Error: At least one directory or file path is required"))
      w [].
Proof. reflexivity. Qed.


Lemma restoreCache_too_many_keys env w paths primaryKey restoreKeys options x :
  (10 < length (primaryKey :: default [] restoreKeys))%nat ->
  rejected (restoreCache env paths primaryKey restoreKeys options x w) w.
Proof.
  intros Hlen. destruct paths as [| p paths'].
  - rewrite restoreCache_no_paths. eexists _, _. split; reflexivity.
  - apply Nat.ltb_lt in Hlen.
    change (wp (restoreCache env (p :: paths') primaryKey restoreKeys options x) w
              (fun r => rejected r w)).
    unfold restoreCache. wp_run. eexists _, _. split; reflexivity.
Qed.

Lemma restoreCache_invalid_key env w paths primaryKey restoreKeys options x key :
  In key (primaryKey :: default [] restoreKeys) -> invalid_key key ->
  rejected (restoreCache env paths primaryKey restoreKeys options x w) w.
Proof.
  intros Hin Hkey. destruct paths as [| p paths'].
  - rewrite restoreCache_no_paths. eexists _, _. split; reflexivity.
  - destruct (10 <? length (primaryKey :: default [] restoreKeys))%nat eqn:Hlen.
    + apply restoreCache_too_many_keys, Nat.ltb_lt, Hlen.
    + destruct (for_of_checkKey_invalid _ key w Hin Hkey) as [msg Hrun].
      change (wp (restoreCache env (p :: paths') primaryKey restoreKeys options x) w
                (fun r => rejected r w)).
      unfold restoreCache. do 8 wp_step.
      eapply wp_known; [exact Hrun |]. run_simpl.
      eexists _, _. split; reflexivity.
Qed.

Lemma saveCache_invalid_key env w paths key options x :
  invalid_key key -> rejected (saveCache env paths key options x w) w.
Proof.
  intros Hkey. destruct paths as [| p paths'].
  - rewrite saveCache_no_paths. eexists _, _. split; reflexivity.
  - destruct (checkKey_invalid key Hkey) as [msg Hmsg].
    change (wp (saveCache env (p :: paths') key options x) w (fun r => rejected r w)).
    unfold saveCache. do 3 wp_step. apply wp_lift. rewrite Hmsg. run_simpl.
    eexists _, _. split; reflexivity.
Qed.

(** C5: a key longer than 512 characters or with a comma in it makes
    [restoreCache] (wherever the key stands in [primaryKey, ...restoreKeys])
    and [saveCache] throw a [ValidationError]; up to the throw no call
    reaches the backing store, and the world is as it was. *)
Theorem invalid_key_rejected_before_storage env w (paths : list string) (key : string) :
  invalid_key key ->
  (forall primaryKey restoreKeys options x,
     In key (primaryKey :: default [] restoreKeys) ->
     let r := restoreCache env paths primaryKey restoreKeys options x w in
     is_ValidationError (outcome r) /\ no_store_call (events r) /\ final r = w)
  /\
  (forall options x,
     let r := saveCache env paths key options x w in
     is_ValidationError (outcome r) /\ no_store_call (events r) /\ final r = w).
Proof.
  intros Hkey. split.
  - intros primaryKey restoreKeys options x Hin r.
    apply rejected_spec. eapply restoreCache_invalid_key; eassumption.
  - intros options x r. apply rejected_spec, saveCache_invalid_key, Hkey.
Qed.

(** C6: more than ten keys in [primaryKey, ...restoreKeys] make
    [restoreCache] throw a [ValidationError] in every state of the store,
    and an empty list of paths makes [restoreCache] and [saveCache] throw
    the same [ValidationError] before anything else happens: no call, no
    log line, the world unchanged. *)
Theorem too_many_keys_or_no_paths_rejected env w :
  (forall paths primaryKey restoreKeys options x,
     (10 < length (primaryKey :: default [] restoreKeys))%nat ->
     let r := restoreCache env paths primaryKey restoreKeys options x w in
     is_ValidationError (outcome r) /\ no_store_call (events r) /\ final r = w)
  /\
  (forall primaryKey restoreKeys doptions x key uoptions y,
     let r := restoreCache env [] primaryKey restoreKeys doptions x w in
     let s := saveCache env [] key uoptions y w in
     (exists msg, outcome r = Throw (ValidationError msg)
                  /\ outcome s = Throw (ValidationError msg))
     /\ events r = [] /\ events s = [] /\ final r = w /\ final s = w).
Proof.
  split.
  - intros paths primaryKey restoreKeys options x Hlen r.
    apply rejected_spec, restoreCache_too_many_keys, Hlen.
  - intros. subst r s. rewrite restoreCache_no_paths, saveCache_no_paths. simpl.
    split; [eexists; split; reflexivity | auto].
Qed.

End ValidationClaims.

(* ===================================================================== *)
(** ** Lookup *)
(* ===================================================================== *)

Section Lookup.

Context {W : Type} {H : Host W}.
Implicit Types (w : W) (env : ProcessEnv).

(** What [getCacheFile] returns, by the result of the one [fs.stat]. *)
Lemma getCacheFile_on env w key :
  isFeatureAvailable env = true ->
  let cacheFile := cache_address env key in
  exists o w' evs,
    fs_stat cacheFile w = (o, w') /\
    getCacheFile env key w
    = MkRun (Return (match o with
                     | Return st =>
                         if isFile st && (0 <? size st)%Z then Some cacheFile else None
                     | Throw _ => None
                     end)) w'
        (EvLog Debug ("getArchiveLocation: " +:+ archive_location env)
         :: EvStat cacheFile o :: evs)
    /\ only_logs evs.
Proof.
  intros Hon cacheFile.
  change (wp (getCacheFile env key) w (fun r =>
    exists o w' evs,
      fs_stat cacheFile w = (o, w') /\
      r = MkRun (Return (match o with
                         | Return st =>
                             if isFile st && (0 <? size st)%Z then Some cacheFile
                             else None
                         | Throw _ => None
                         end)) w'
            (EvLog Debug ("getArchiveLocation: " +:+ archive_location env)
             :: EvStat cacheFile o :: evs)
      /\ only_logs evs)).
  subst cacheFile. unfold cache_address.
  wp_run; cbn [js_show] in *.
  all: eexists _, _, _; (split; [eassumption |]); cbn iota; rewrite ?Hc;
    split; reflexivity.
Qed.

Lemma getCacheFile_off env w key :
  isFeatureAvailable env = false ->
  getCacheFile env key w
  = MkRun (Return None) w [EvLog Warning "getArchiveLocation: cache not available"].
Proof.
  intros Hoff. unfold getCacheFile, bind. rewrite (getArchiveLocation_off env w Hoff).
  reflexivity.
Qed.

(** C7: [getCacheFile] never fails; it reports a hit exactly when the
    cache directory is configured and [fs.stat] finds, at the address of
    the key, a regular file of size greater than zero.  A file of length
    zero is a miss, and so is every failure of [fs.stat], a missing file
    among them. *)
Theorem getCacheFile_hit_iff_nonempty_file env w (key : string) :
  let cacheFile := cache_address env key in
  let r := getCacheFile env key w in
  (exists v, outcome r = Return v)
  /\ (forall hit,
        outcome r = Return (Some hit) <->
        isFeatureAvailable env = true /\ hit = cacheFile /\
        exists st, fst (fs_stat cacheFile w) = Return st
                   /\ isFile st = true /\ 0 < size st)
  /\ (forall st, fst (fs_stat cacheFile w) = Return st -> size st = 0 ->
                 outcome r = Return None)
  /\ (forall e, fst (fs_stat cacheFile w) = Throw e -> outcome r = Return None).
Proof.
  intros cacheFile r. subst r.
  destruct (isFeatureAvailable env) eqn:Hav.
  - destruct (getCacheFile_on env w key Hav) as (o & w' & evs & Hstat & Hrun & _).
    fold cacheFile in Hstat, Hrun. rewrite Hrun, Hstat. cbn [outcome fst].
    split; [eauto |]. split; [| split].
    + intros hit. split.
      * intros Hhit. destruct o as [st | e]; [| discriminate].
        destruct (isFile st) eqn:Hfile; [| discriminate].
        destruct (0 <? size st)%Z eqn:Hsize; [| discriminate].
        cbn in Hhit. injection Hhit as <-.
        apply Z.ltb_lt in Hsize. eauto 6.
      * intros (_ & -> & st & -> & Hfile & Hsize).
        apply Z.ltb_lt in Hsize. rewrite Hfile, Hsize. reflexivity.
    + intros st -> Hzero. rewrite Hzero, andb_false_r. reflexivity.
    + intros e ->. reflexivity.
  - rewrite (getCacheFile_off env w key Hav). cbn [outcome].
    split; [eauto |]. split; [| auto].
    intros hit. split; [discriminate | intros [Hf _]; discriminate].
Qed.

(** C10: [isFeatureAvailable()] is true exactly when [getArchiveLocation]
    returns a location, and both are decided by [GHRUNNER_CACHE] being set
    to a non-empty string.  When [isFeatureAvailable()] is false,
    [restoreCache] never reports a hit: it returns [undefined] for every
    call that passes validation (and throws the [ValidationError]
    otherwise), and neither it nor [saveCache] makes a call to the store. *)
Theorem feature_available_iff_location env w :
  (isFeatureAvailable env = true <->
   exists loc, outcome (getArchiveLocation env w) = Return (Some loc))
  /\ (isFeatureAvailable env = true <->
      exists top, GHRUNNER_CACHE env = Some top /\ top <> "")
  /\ (isFeatureAvailable env = false ->
      (forall paths primaryKey restoreKeys options x,
         let r := restoreCache env paths primaryKey restoreKeys options x w in
         (outcome r = Return None \/ is_ValidationError (outcome r))
         /\ (paths <> [] ->
             (length (primaryKey :: default [] restoreKeys) <= 10)%nat ->
             Forall (fun k => ~ invalid_key k) (primaryKey :: default [] restoreKeys) ->
             outcome r = Return None)
         /\ no_store_call (events r))
      /\ (forall paths key options x,
            no_store_call (events (saveCache env paths key options x w)))).
Proof.
  split; [| split].
  - destruct (isFeatureAvailable env) eqn:Hav.
    + rewrite (getArchiveLocation_on env w Hav). cbn. split; eauto.
    + rewrite (getArchiveLocation_off env w Hav). cbn.
      split; [discriminate | intros [loc Hloc]; discriminate].
  - unfold isFeatureAvailable, js_truthy.
    destruct (GHRUNNER_CACHE env) as [top |].
    + destruct (String.eqb_spec top "") as [-> | Hne]; cbn.
      * split; [discriminate | intros (top & [= <-] & Hne); congruence].
      * split; eauto.
    + split; [discriminate | intros (top & Htop & _); discriminate].
  - intros Hoff. split.
    + intros paths primaryKey restoreKeys options x r. subst r.
      destruct paths as [| p paths'].
      { rewrite restoreCache_no_paths. cbn.
        split; [right; eexists; reflexivity |]. split; [congruence | reflexivity]. }
      change (wp (restoreCache env (p :: paths') primaryKey restoreKeys options x) w
                (fun r =>
                   (outcome r = Return None \/ is_ValidationError (outcome r))
                   /\ (p :: paths' <> [] ->
                       (length (primaryKey :: default [] restoreKeys) <= 10)%nat ->
                       Forall (fun k => ~ invalid_key k)
                              (primaryKey :: default [] restoreKeys) ->
                       outcome r = Return None)
                   /\ no_store_call (events r))).
      unfold restoreCache. wp_run; run_simpl.
      * split; [right; eexists; reflexivity |]. split; [| reflexivity].
        intros _ Hlen _. apply Nat.ltb_lt in Hc. lia.
      * split; [auto |]. split; [auto | reflexivity].
      * split; [right; eexists; reflexivity |]. split; [| reflexivity].
        intros _ _ Hvalid. rewrite (for_of_checkKey_valid _ w Hvalid) in Hkeys.
        discriminate.
    + intros paths key options x.
      destruct paths as [| p paths'].
      { rewrite saveCache_no_paths. reflexivity. }
      change (wp (saveCache env (p :: paths') key options x) w
                (fun r => no_store_call (events r))).
      unfold saveCache. wp_run; run_simpl; reflexivity.
Qed.

End Lookup.

(* ===================================================================== *)
(** ** Saving *)
(* ===================================================================== *)

(** Split a hypothesis [In e evs] over an explicit list of events. *)
Ltac in_events Hin :=
  cbn [In] in Hin;
  repeat (destruct Hin as [Hin | Hin]);
  try discriminate Hin; try contradiction.

(** The size test of cache.ts 185 against what is known of the size. *)
Ltac size_test :=
  match goal with
  | Hlt : (CacheFileSizeLimit <? _)%Z = true |- _ => apply Z.ltb_lt in Hlt; lia
  | Hge : (CacheFileSizeLimit <? _)%Z = false |- _ => apply Z.ltb_ge in Hge; lia
  end.

Section Saving.

Context {W : Type} {H : Host W}.
Implicit Types (w : W) (env : ProcessEnv).

(** C2: what the code does with an archive over the limit.  When the
    archive that [saveCache] has packaged measures more than 10 GiB, the
    error that reports the measured size and the limit is raised inside
    the [try] block, but it is caught there and logged as a warning:
    [saveCache] returns -1 where the claim, and the docstring of
    [saveCache], have it throw.  No call reaches the backing store. *)
Theorem oversized_archive_not_saved env w paths key options x p sz :
  let r := saveCache env paths key options x w in
  In (EvArchiveSize p (Return sz)) (events r) ->
  CacheFileSizeLimit < sz ->
  outcome r = Return (-1)
  /\ In (EvLog Warning ("Failed to save: " +:+ over_limit_message sz)) (events r)
  /\ no_store_call (events r).
Proof.
  intros r. subst r. revert p sz.
  destruct paths as [| p0 paths'].
  { rewrite saveCache_no_paths. intros p sz []. }
  change (wp (saveCache env (p0 :: paths') key options x) w (fun r =>
    forall p sz,
      In (EvArchiveSize p (Return sz)) (events r) ->
      CacheFileSizeLimit < sz ->
      outcome r = Return (-1)
      /\ In (EvLog Warning ("Failed to save: " +:+ over_limit_message sz)) (events r)
      /\ no_store_call (events r))).
  destruct (isFeatureAvailable env) eqn:Hav.
  all: unfold saveCache; wp_run.
  all: intros p sz Hin Hbig; in_events Hin.
  all: injection Hin as -> ->.
  all: try size_test.
  all: cbn [err_message Error]; split; [reflexivity |]; split; [| reflexivity].
  all: cbn [In]; auto 20.
Qed.

(** What makes [saveCache] return 1: [backend.saveCache] came back, and
    it comes back from a failed write as it does from a successful one. *)
Lemma store_failure_reported_as_saved env w paths key options x e :
  let r := saveCache env paths key options x w in
  (exists src dst, In (EvCopyFile src dst (Throw e)) (events r))
  \/ (exists d, In (EvMkdir d (Throw e)) (events r)) ->
  outcome r = Return 1
  /\ In (EvLog Warning ("saveCache: failed to save archive: " +:+ js_toString e))
        (events r).
Proof.
  intros r. subst r.
  destruct paths as [| p0 paths'].
  { rewrite saveCache_no_paths. intros [(src & dst & []) | (d & [])]. }
  change (wp (saveCache env (p0 :: paths') key options x) w (fun r =>
    (exists src dst, In (EvCopyFile src dst (Throw e)) (events r))
    \/ (exists d, In (EvMkdir d (Throw e)) (events r)) ->
    outcome r = Return 1
    /\ In (EvLog Warning ("saveCache: failed to save archive: " +:+ js_toString e))
          (events r))).
  destruct (isFeatureAvailable env) eqn:Hav.
  all: unfold saveCache; wp_run.
  all: intros [(src & dst & Hin) | (d & Hin)]; in_events Hin.
  all: injection Hin as <-; try subst.
  all: split; [reflexivity | cbn [In]; auto 20].
Qed.

(** And it comes back from an unconfigured store in the same way. *)
Lemma unavailable_store_reported_as_saved env w paths key options x p sz :
  let r := saveCache env paths key options x w in
  isFeatureAvailable env = false ->
  In (EvArchiveSize p (Return sz)) (events r) ->
  sz <= CacheFileSizeLimit ->
  outcome r = Return 1 /\ no_store_call (events r).
Proof.
  intros r Hav. subst r. revert p sz.
  destruct paths as [| p0 paths'].
  { rewrite saveCache_no_paths. intros p sz []. }
  change (wp (saveCache env (p0 :: paths') key options x) w (fun r =>
    forall p sz,
      In (EvArchiveSize p (Return sz)) (events r) ->
      sz <= CacheFileSizeLimit ->
      outcome r = Return 1 /\ no_store_call (events r))).
  unfold saveCache; wp_run.
  all: intros p sz Hin Hsmall; in_events Hin.
  all: injection Hin as -> ->.
  all: try size_test.
  all: split; reflexivity.
Qed.

End Saving.

(* ===================================================================== *)
(** ** Restoring *)
(* ===================================================================== *)

Section Restoring.

Context {W : Type} {H : Host W}.
Implicit Types (w : W) (env : ProcessEnv).

(** [restoreCache] looks at one address, that of the primary key, and a
    hit is a hit of the primary key; the restore keys are validated and
    logged and never looked up. *)
Lemma restoreCache_probes_primary_key_only env w paths primaryKey restoreKeys options x :
  let r := restoreCache env paths primaryKey restoreKeys options x w in
  (forall p o, In (EvStat p o) (events r) -> p = cache_address env primaryKey)
  /\ (forall hit,
        outcome r = Return (Some hit) ->
        hit = primaryKey
        /\ exists st, fst (fs_stat (cache_address env primaryKey) w) = Return st
                      /\ isFile st = true /\ 0 < size st).
Proof.
  intros r. subst r.
  destruct paths as [| p0 paths'].
  { rewrite restoreCache_no_paths. split; [intros p o [] | discriminate]. }
  change (wp (restoreCache env (p0 :: paths') primaryKey restoreKeys options x) w
    (fun r =>
       (forall p o, In (EvStat p o) (events r) -> p = cache_address env primaryKey)
       /\ (forall hit,
             outcome r = Return (Some hit) ->
             hit = primaryKey
             /\ exists st, fst (fs_stat (cache_address env primaryKey) w) = Return st
                           /\ isFile st = true /\ 0 < size st))).
  unfold cache_address.
  destruct (isFeatureAvailable env) eqn:Hav.
  all: unfold restoreCache; wp_run; cbn [js_show] in *.
  all: split; [intros p o Hin; in_events Hin; injection Hin; intros; subst; reflexivity |].
  all: intros hit Hhit; try discriminate Hhit.
  all: injection Hhit as <-; (split; [reflexivity |]).
  all: match goal with
       | Hs : fs_stat _ _ = (Return ?st, _),
         Hf : isFile ?st && (0 <? size ?st)%Z = true |- _ =>
           rewrite Hs; apply andb_prop in Hf; destruct Hf as [Hf Hz];
           apply Z.ltb_lt in Hz; exists st; auto
       end.
Qed.


End Restoring.

(* ===================================================================== *)
(** ** The temporary archive *)
(* ===================================================================== *)

Lemma deleted_last_here (archivePath : string) (o : Outcome unit) :
  deleted_last archivePath (EvUnlink archivePath o :: deletion_log o).
Proof. exists [], o. split; reflexivity. Qed.

Lemma deleted_last_later (archivePath : string) (e : Event) (evs : list Event) :
  is_unlink e = false ->
  deleted_last archivePath evs -> deleted_last archivePath (e :: evs).
Proof.
  intros He (pre & o & -> & Hpre). exists (e :: pre), o.
  split; [reflexivity |]. cbn [forallb]. rewrite He, Hpre. reflexivity.
Qed.

(** Find the deletion at the end of an explicit list of events. *)
Ltac find_deletion :=
  repeat (apply deleted_last_later; [reflexivity |]);
  lazymatch goal with
  | |- deleted_last ?p (EvUnlink ?p ?o :: _) => exact (deleted_last_here p o)
  end.

Section Cleanup.

Context {W : Type} {H : Host W}.
Implicit Types (w : W) (env : ProcessEnv).

Lemma outcome_bind_ext {A B} (m : M W A) (k k' : A -> M W B) w :
  (forall a w', outcome (k a w') = outcome (k' a w')) ->
  outcome (bind m k w) = outcome (bind m k' w).
Proof.
  intros Hk. unfold bind, prefixed. destruct (m w) as [[a | e] w' evs]; cbn; auto.
Qed.

Lemma outcome_bind_ret {A} (m : M W A) w :
  outcome (bind m (fun a => ret a) w) = outcome (m w).
Proof. unfold bind, prefixed. destruct (m w) as [[a | e] w' evs]; reflexivity. Qed.

(** The [finally] block never throws, so the completion of the [try]
    block stands, whatever [unlinkFile] does. *)
Lemma outcome_try_finally_delete {A} (body : M W A) (archivePath : string) w :
  outcome (try_finally body (delete_archive archivePath) w) = outcome (body w).
Proof.
  unfold try_finally, delete_archive, try_catch, call.
  destruct (body w) as [o w' evs].
  destruct (utils_unlinkFile archivePath w') as [[[] | e] w'']; reflexivity.
Qed.

End Cleanup.

Section CleanupClaim.

Context {W : Type} {H : Host W}.
Implicit Types (w : W) (env : ProcessEnv).

Lemma restoreCache_outcome_without_unlinkFile env w u paths primaryKey restoreKeys
    options x :
  outcome (restoreCache (H := with_unlinkFile H u) env paths primaryKey restoreKeys
             options x w)
  = outcome (restoreCache env paths primaryKey restoreKeys options x w).
Proof.
  unfold restoreCache.
  repeat first
    [ rewrite !outcome_try_finally_delete; reflexivity
    | apply outcome_bind_ext; intros ? ?
    | match goal with
      | |- outcome ((if ?c then _ else _) _) = _ => destruct c
      end
    | reflexivity ].
Qed.

Lemma saveCache_outcome_without_unlinkFile env w u paths key options x :
  outcome (saveCache (H := with_unlinkFile H u) env paths key options x w)
  = outcome (saveCache env paths key options x w).
Proof.
  unfold saveCache.
  repeat first
    [ rewrite !outcome_bind_ret, !outcome_try_finally_delete; reflexivity
    | apply outcome_bind_ext; intros ? ?
    | match goal with
      | |- outcome ((if ?c then _ else _) _) = _ => destruct c
      end
    | reflexivity ].
Qed.

(** C8: once [restoreCache] or [saveCache] has its temporary directory,
    whatever happens in the [try] block, the run ends with the deletion
    of the archive: it is the only [unlinkFile], it comes after every
    other call, the world the function leaves is the world that
    [unlinkFile] left, and when the deletion fails the one thing that
    follows is a debug line.  The error of a failed deletion is never
    what the function throws: [restoreCache] returns, and the outcome of
    either function is the same under every behaviour of [unlinkFile]. *)
Theorem temporary_archive_always_deleted env w :
  (forall paths primaryKey restoreKeys options x m tmp,
     let r := restoreCache env paths primaryKey restoreKeys options x w in
     let archivePath := path_join [tmp; utils_getCacheFileName m] in
     In (EvCompressionMethod (Return m)) (events r) ->
     In (EvCreateTempDirectory (Return tmp)) (events r) ->
     deleted_last archivePath (events r)
     /\ (exists v, outcome r = Return v)
     /\ exists w0 o,
          utils_unlinkFile archivePath w0 = (o, final r)
          /\ In (EvUnlink archivePath o) (events r))
  /\ (forall paths key options x m tmp,
        let r := saveCache env paths key options x w in
        let archivePath := path_join [tmp; utils_getCacheFileName m] in
        In (EvCompressionMethod (Return m)) (events r) ->
        In (EvCreateTempDirectory (Return tmp)) (events r) ->
        deleted_last archivePath (events r)
        /\ exists w0 o,
             utils_unlinkFile archivePath w0 = (o, final r)
             /\ In (EvUnlink archivePath o) (events r))
  /\ (forall u paths primaryKey restoreKeys options x,
        outcome (restoreCache (H := with_unlinkFile H u) env paths primaryKey
                   restoreKeys options x w)
        = outcome (restoreCache env paths primaryKey restoreKeys options x w))
  /\ (forall u paths key options x,
        outcome (saveCache (H := with_unlinkFile H u) env paths key options x w)
        = outcome (saveCache env paths key options x w)).
Proof.
  split; [| split; [| split]].
  - intros paths primaryKey restoreKeys options x m tmp r archivePath.
    subst r archivePath.
    destruct paths as [| p0 paths'].
    { rewrite restoreCache_no_paths. intros []. }
    change (wp (restoreCache env (p0 :: paths') primaryKey restoreKeys options x) w
      (fun r =>
         In (EvCompressionMethod (Return m)) (events r) ->
         In (EvCreateTempDirectory (Return tmp)) (events r) ->
         deleted_last (path_join [tmp; utils_getCacheFileName m]) (events r)
         /\ (exists v, outcome r = Return v)
         /\ exists w0 o,
              utils_unlinkFile (path_join [tmp; utils_getCacheFileName m]) w0
              = (o, final r)
              /\ In (EvUnlink (path_join [tmp; utils_getCacheFileName m]) o)
                    (events r))).
    destruct (isFeatureAvailable env) eqn:Hav.
    all: unfold restoreCache; wp_run.
    all: intros Hm Htmp; in_events Hm; in_events Htmp.
    all: injection Hm as <-; injection Htmp as <-.
    all: split; [find_deletion |]; split; [eexists; reflexivity |].
    all: eexists _, _; split; [eassumption | cbn [In]; auto 30].
  - intros paths key options x m tmp r archivePath. subst r archivePath.
    destruct paths as [| p0 paths'].
    { rewrite saveCache_no_paths. intros []. }
    change (wp (saveCache env (p0 :: paths') key options x) w
      (fun r =>
         In (EvCompressionMethod (Return m)) (events r) ->
         In (EvCreateTempDirectory (Return tmp)) (events r) ->
         deleted_last (path_join [tmp; utils_getCacheFileName m]) (events r)
         /\ exists w0 o,
              utils_unlinkFile (path_join [tmp; utils_getCacheFileName m]) w0
              = (o, final r)
              /\ In (EvUnlink (path_join [tmp; utils_getCacheFileName m]) o)
                    (events r))).
    destruct (isFeatureAvailable env) eqn:Hav.
    all: unfold saveCache; wp_run.
    all: intros Hm Htmp; in_events Hm; in_events Htmp.
    all: injection Hm as <-; injection Htmp as <-.
    all: split; [find_deletion |].
    all: eexists _, _; split; [eassumption | cbn [In]; auto 30].
  - intros. apply restoreCache_outcome_without_unlinkFile.
  - intros. apply saveCache_outcome_without_unlinkFile.
Qed.

End CleanupClaim.

(* ===================================================================== *)
(** ** Further properties: what is rejected, and with which error *)
(* ===================================================================== *)

Lemma checkKey_Throw_invalid (key : string) (e : JsError) :
  checkKey key = Throw e -> invalid_key key.
Proof.
  intros Hthrow. destruct (checkKey_outcome key) as [Hok | _]; [congruence |].
  unfold checkKey in Hthrow.
  destruct (512 <? String.length key)%nat eqn:Hlen.
  - left. apply Nat.ltb_lt, Hlen.
  - destruct (regex_test_no_comma key) eqn:Hre; [discriminate |].
    right. apply regex_test_no_comma_false, Hre.
Qed.

(** Close a leaf whose run is supposed to be [rejected] and is not. *)
Ltac not_rejected Hrej :=
  let msg := fresh "msg" in
  let evs := fresh "evs" in
  let Heq := fresh "Heq" in
  let Hlogs := fresh "Hlogs" in
  destruct Hrej as (msg & evs & Heq & Hlogs);
  first [ discriminate Heq
        | injection Heq as ? ? ?; subst; discriminate Hlogs ].

Section Rejection.

Context {W : Type} {H : Host W}.
Implicit Types (w : W) (env : ProcessEnv).

Lemma for_of_checkKey_Throw (keys : list string) w (e : JsError) (evs : list Event) w' :
  for_of (W:=W) keys (fun k => lift (checkKey k)) w = MkRun (Throw e) w' evs ->
  Exists invalid_key keys.
Proof.
  induction keys as [| k keys IH]; [discriminate |].
  rewrite for_of_checkKey_cons. destruct (checkKey k) as [[] | e'] eqn:Hk.
  - intros Hrun. right. exact (IH Hrun).
  - intros _. left. exact (checkKey_Throw_invalid k e' Hk).
Qed.

(** What a [bind] logs starts with what its first part logs. *)
Lemma wp_bind_events {A B} (m : M W A) (k : A -> M W B) w (Q : Run W B -> Prop) :
  (forall r, (exists rest, events r = events (m w) ++ rest) -> Q r) ->
  wp (bind m k) w Q.
Proof.
  intros HQ. apply HQ. unfold bind.
  destruct (m w) as [[a | e] w' evs]; cbn [events].
  - exists (events (k a w')). reflexivity.
  - exists []. symmetry. apply app_nil_r.
Qed.

(** X1: [restoreCache] ends in its own [ValidationError], before any call,
    exactly when the list of paths is empty, or there are more than ten
    keys, or one of the keys is longer than 512 characters or holds a
    comma.  Every other call gets as far as the lookup: after the two
    debug lines of the keys, its run goes on with the run of
    [getCacheFile] for the primary key, from the world it was given. *)
Theorem restoreCache_rejects_exactly_invalid_arguments env w paths primaryKey
    restoreKeys options x :
  let r := restoreCache env paths primaryKey restoreKeys options x w in
  let keys := primaryKey :: default [] restoreKeys in
  (rejected r w
   <-> paths = [] \/ (10 < length keys)%nat \/ Exists invalid_key keys)
  /\ (~ rejected r w ->
      exists rest,
        events r
        = [EvLog Debug "Resolved Keys:"; EvLog Debug (JSON_stringify keys)]
          ++ events (getCacheFile env primaryKey w) ++ rest).
Proof.
  intros r keys. subst r keys.
  assert (Hiff :
    rejected (restoreCache env paths primaryKey restoreKeys options x w) w
    <-> paths = []
        \/ (10 < length (primaryKey :: default [] restoreKeys))%nat
        \/ Exists invalid_key (primaryKey :: default [] restoreKeys)).
  { split.
    - destruct paths as [| p0 paths']; [auto |].
      change (wp (restoreCache env (p0 :: paths') primaryKey restoreKeys options x) w
        (fun r =>
           rejected r w ->
           p0 :: paths' = []
           \/ (10 < length (primaryKey :: default [] restoreKeys))%nat
           \/ Exists invalid_key (primaryKey :: default [] restoreKeys))).
      destruct (isFeatureAvailable env) eqn:Hav.
      all: unfold restoreCache; wp_run.
      all: intros Hrej.
      all: try (right; left; apply Nat.ltb_lt; assumption).
      all: try (right; right; eapply for_of_checkKey_Throw; eassumption).
      all: not_rejected Hrej.
    - intros [-> | [Hlen | Hbad]].
      + rewrite restoreCache_no_paths. eexists _, _. split; reflexivity.
      + apply restoreCache_too_many_keys, Hlen.
      + apply Exists_exists in Hbad. destruct Hbad as (key & Hin & Hkey).
        apply list_elem_of_In in Hin.
        eapply restoreCache_invalid_key; eassumption. }
  split; [exact Hiff |].
  intros Hnot.
  destruct paths as [| p0 paths']; [destruct Hnot; apply Hiff; auto |].
  destruct (10 <? length (primaryKey :: default [] restoreKeys))%nat eqn:Hlen.
  { destruct Hnot. apply Hiff. right. left. apply Nat.ltb_lt, Hlen. }
  destruct (for_of_checkKey_pure (primaryKey :: default [] restoreKeys) w)
    as [Hkeys | [msg Hkeys]].
  2: { destruct Hnot. apply Hiff. right. right.
       eapply for_of_checkKey_Throw. exact Hkeys. }
  clear Hnot Hiff.
  change (wp (restoreCache env (p0 :: paths') primaryKey restoreKeys options x) w
    (fun r =>
       exists rest,
         events r
         = [EvLog Debug "Resolved Keys:";
            EvLog Debug (JSON_stringify (primaryKey :: default [] restoreKeys))]
           ++ events (getCacheFile env primaryKey w) ++ rest)).
  unfold restoreCache. do 8 wp_step.
  eapply wp_known; [exact Hkeys |]. run_simpl.
  apply wp_bind_events. intros r [rest Hr].
  exists rest. unfold prefixed. cbn [events app]. rewrite Hr. reflexivity.
Qed.

(** X2: [saveCache] ends in its own [ValidationError], before any call,
    exactly when the list of paths is empty or the key is longer than 512
    characters or holds a comma. *)
Theorem saveCache_rejects_exactly_invalid_arguments env w paths key options x :
  rejected (saveCache env paths key options x w) w
  <-> paths = [] \/ invalid_key key.
Proof.
  split.
  - destruct paths as [| p0 paths']; [auto |].
    change (wp (saveCache env (p0 :: paths') key options x) w
      (fun r => rejected r w -> p0 :: paths' = [] \/ invalid_key key)).
    destruct (isFeatureAvailable env) eqn:Hav.
    all: unfold saveCache; wp_run.
    all: intros Hrej.
    all: try (right; eapply checkKey_Throw_invalid; eassumption).
    all: not_rejected Hrej.
  - intros [-> | Hkey].
    + rewrite saveCache_no_paths. eexists _, _. split; reflexivity.
    + apply saveCache_invalid_key, Hkey.
Qed.

End Rejection.

(* ===================================================================== *)
(** ** Further properties: restoring *)
(* ===================================================================== *)

(** Replace the results of type [unit] by [tt]. *)
Ltac units := repeat match goal with u : unit |- _ => destruct u end.

(** Use a hypothesis [In ev evs], [evs] explicit, for an unknown [ev]. *)
Ltac some_event Hin :=
  cbn [In] in Hin; repeat (destruct Hin as [Hin | Hin]); try contradiction;
  subst.

Section RestoringMore.

Context {W : Type} {H : Host W}.
Implicit Types (w : W) (env : ProcessEnv).



(** X5: what [restoreCache] throws is its own [ValidationError], or what
    [getCompressionMethod] or [createTempDirectory] threw; nothing else
    reaches the caller. *)
Theorem restoreCache_throws_only env w paths primaryKey restoreKeys options x e :
  let r := restoreCache env paths primaryKey restoreKeys options x w in
  outcome r = Throw e ->
  rejected r w
  \/ In (EvCompressionMethod (Throw e)) (events r)
  \/ In (EvCreateTempDirectory (Throw e)) (events r).
Proof.
  intros r. subst r.
  destruct paths as [| p0 paths'].
  { rewrite restoreCache_no_paths. intros _. left. eexists _, _. split; reflexivity. }
  change (wp (restoreCache env (p0 :: paths') primaryKey restoreKeys options x) w
    (fun r =>
       outcome r = Throw e ->
       rejected r w
       \/ In (EvCompressionMethod (Throw e)) (events r)
       \/ In (EvCreateTempDirectory (Throw e)) (events r))).
  destruct (isFeatureAvailable env) eqn:Hav.
  all: unfold restoreCache; wp_run.
  all: intros Hthrow; try discriminate Hthrow.
  all: try (left; eexists _, _; split; reflexivity).
  all: injection Hthrow as ->; right; cbn [In]; auto 20.
Qed.

(** X6: a failure of the copy out of the store, of the measurement, of
    the listing or of the extraction is not thrown: [restoreCache] logs
    the warning with the error's message and returns [undefined]. *)
Theorem restoreCache_transfer_failure_is_a_miss env w paths primaryKey restoreKeys
    options x ev e :
  let r := restoreCache env paths primaryKey restoreKeys options x w in
  In ev (events r) -> is_transfer_step ev = true -> event_error ev = Some e ->
  outcome r = Return None
  /\ In (EvLog Warning ("Failed to restore: " +:+ err_message e)) (events r).
Proof.
  intros r. subst r. revert ev.
  destruct paths as [| p0 paths'].
  { rewrite restoreCache_no_paths. intros ev []. }
  change (wp (restoreCache env (p0 :: paths') primaryKey restoreKeys options x) w
    (fun r =>
       forall ev,
         In ev (events r) -> is_transfer_step ev = true -> event_error ev = Some e ->
         outcome r = Return None
         /\ In (EvLog Warning ("Failed to restore: " +:+ err_message e)) (events r))).
  destruct (isFeatureAvailable env) eqn:Hav.
  all: unfold restoreCache; wp_run.
  all: intros ev Hin Hstep Herr; some_event Hin.
  all: cbn [is_transfer_step event_error] in Hstep, Herr; try discriminate.
  all: injection Herr as <-; split; [reflexivity | cbn [In]; auto 30].
Qed.

(** X7: a hit is the primary key, and outside [lookupOnly] it is reported
    only after the entry was copied, measured and extracted; conversely a
    successful extraction always ends in the hit. *)
Theorem restoreCache_hit_means_restored env w paths primaryKey restoreKeys options x :
  let r := restoreCache env paths primaryKey restoreKeys options x w in
  (forall k,
     outcome r = Return (Some k) ->
     k = primaryKey
     /\ (lookupOnly_requested options = true
         \/ exists src ap m sz,
              In (EvCopyFile src ap (Return tt)) (events r)
              /\ In (EvArchiveSize ap (Return sz)) (events r)
              /\ In (EvExtractTar ap m (Return tt)) (events r)))
  /\ (forall ap m,
        In (EvExtractTar ap m (Return tt)) (events r) ->
        outcome r = Return (Some primaryKey)).
Proof.
  intros r. subst r.
  destruct paths as [| p0 paths'].
  { rewrite restoreCache_no_paths. split; [discriminate | intros ap m []]. }
  change (wp (restoreCache env (p0 :: paths') primaryKey restoreKeys options x) w
    (fun r =>
       (forall k,
          outcome r = Return (Some k) ->
          k = primaryKey
          /\ (lookupOnly_requested options = true
              \/ exists src ap m sz,
                   In (EvCopyFile src ap (Return tt)) (events r)
                   /\ In (EvArchiveSize ap (Return sz)) (events r)
                   /\ In (EvExtractTar ap m (Return tt)) (events r)))
       /\ (forall ap m,
             In (EvExtractTar ap m (Return tt)) (events r) ->
             outcome r = Return (Some primaryKey)))).
  destruct (isFeatureAvailable env) eqn:Hav.
  all: unfold restoreCache; wp_run; units.
  all: split;
    [ intros k Hk;
      first [discriminate Hk | injection Hk as <-; split; [reflexivity |]]
    | intros ap m Hin; in_events Hin; reflexivity ].
  all: first [ left; assumption
             | right; eexists _, _, _, _; cbn [In]; split; [| split]; auto 30 ].
Qed.

(** X8: [restoreCache] never writes to the store: it makes no [fs.mkdir],
    and what it copies goes from the address of the primary key to the
    archive in its temporary directory. *)
Theorem restoreCache_never_writes_store env w paths primaryKey restoreKeys options x :
  let r := restoreCache env paths primaryKey restoreKeys options x w in
  (forall d o, ~ In (EvMkdir d o) (events r))
  /\ (forall src dst o,
        In (EvCopyFile src dst o) (events r) ->
        src = cache_address env primaryKey
        /\ exists tmp m,
             In (EvCreateTempDirectory (Return tmp)) (events r)
             /\ In (EvCompressionMethod (Return m)) (events r)
             /\ dst = path_join [tmp; utils_getCacheFileName m]).
Proof.
  intros r. subst r.
  destruct paths as [| p0 paths'].
  { rewrite restoreCache_no_paths. split; [intros d o [] | intros src dst o []]. }
  change (wp (restoreCache env (p0 :: paths') primaryKey restoreKeys options x) w
    (fun r =>
       (forall d o, ~ In (EvMkdir d o) (events r))
       /\ (forall src dst o,
             In (EvCopyFile src dst o) (events r) ->
             src = cache_address env primaryKey
             /\ exists tmp m,
                  In (EvCreateTempDirectory (Return tmp)) (events r)
                  /\ In (EvCompressionMethod (Return m)) (events r)
                  /\ dst = path_join [tmp; utils_getCacheFileName m]))).
  unfold cache_address.
  destruct (isFeatureAvailable env) eqn:Hav.
  all: unfold restoreCache; wp_run; cbn [js_show] in *.
  all: split; [intros d o Hin; in_events Hin |].
  all: intros src dst o Hin; in_events Hin.
  all: injection Hin as <- <- <-; split; [reflexivity |].
  all: eexists _, _; cbn [In]; split; [| split]; [auto 30 | auto 30 | reflexivity].
Qed.

End RestoringMore.

(* ===================================================================== *)
(** ** Further properties: saving *)
(* ===================================================================== *)

(** The test of cache.ts 163 on what [resolvePaths] returned. *)
Ltac no_paths_test :=
  repeat match goal with
  | Hn : (length ?l =? 0)%nat = true |- _ =>
      destruct l; [clear Hn | discriminate Hn]
  | Hn : (length [] =? 0)%nat = false |- _ => discriminate Hn
  end.

(** Choose an element of an explicit list of events; what follows decides
    which one. *)
Ltac pick_event := cbn [In]; ((left; reflexivity) + (right; pick_event)).

Section SavingMore.

Context {W : Type} {H : Host W}.
Implicit Types (w : W) (env : ProcessEnv).

(** X9: [saveCache] returns 1 exactly when the archive was packaged and
    measured at no more than 10 GiB.  What happens in the store after
    that, a write that fails or no store at all, does not change the
    result. *)
Theorem saveCache_returns_1_iff_within_limit env w paths key options x :
  let r := saveCache env paths key options x w in
  outcome r = Return 1
  <-> exists ap sz,
        In (EvArchiveSize ap (Return sz)) (events r) /\ sz <= CacheFileSizeLimit.
Proof.
  intros r. subst r.
  destruct paths as [| p0 paths'].
  { rewrite saveCache_no_paths. split; [discriminate | intros (ap & sz & [] & _)]. }
  change (wp (saveCache env (p0 :: paths') key options x) w
    (fun r =>
       outcome r = Return 1
       <-> exists ap sz,
             In (EvArchiveSize ap (Return sz)) (events r)
             /\ sz <= CacheFileSizeLimit)).
  destruct (isFeatureAvailable env) eqn:Hav.
  all: unfold saveCache; wp_run.
  all: split;
    [ intros Hone; try discriminate Hone
    | intros (ap & sz & Hin & Hsmall); in_events Hin; injection Hin as <- <-;
      first [reflexivity | size_test] ].
  all: eexists _, _; split; [cbn [In]; auto 30 | size_test].
Qed.

(** X10: [saveCache] returns 1 or -1, and -1 never comes without the
    warning that says why the cache was not saved. *)
Theorem saveCache_not_saved_is_warned env w paths key options x v :
  let r := saveCache env paths key options x w in
  outcome r = Return v ->
  v = 1
  \/ (v = -1 /\ exists msg, In (EvLog Warning ("Failed to save: " +:+ msg)) (events r)).
Proof.
  intros r. subst r.
  destruct paths as [| p0 paths'].
  { rewrite saveCache_no_paths. discriminate. }
  change (wp (saveCache env (p0 :: paths') key options x) w
    (fun r =>
       outcome r = Return v ->
       v = 1
       \/ (v = -1
           /\ exists msg, In (EvLog Warning ("Failed to save: " +:+ msg)) (events r)))).
  destruct (isFeatureAvailable env) eqn:Hav.
  all: unfold saveCache; wp_run.
  all: intros Hv; try discriminate Hv; injection Hv as <-.
  all: first [ left; reflexivity
             | right; split; [reflexivity |]; eexists; cbn [In]; auto 30 ].
Qed.

(** X11: what [saveCache] throws is its own [ValidationError]; or what
    [getCompressionMethod], [resolvePaths] or [createTempDirectory]
    threw; or the error that says no path exists; or an error named
    [ValidationError] that came out of packaging, listing or measuring.
    An error of the store is never thrown. *)
Theorem saveCache_throws_only env w paths key options x e :
  let r := saveCache env paths key options x w in
  outcome r = Throw e ->
  rejected r w
  \/ In (EvCompressionMethod (Throw e)) (events r)
  \/ In (EvResolvePaths paths (Throw e)) (events r)
  \/ (In (EvResolvePaths paths (Return [])) (events r) /\ err_name e = "Error")
  \/ In (EvCreateTempDirectory (Throw e)) (events r)
  \/ (err_name e = "ValidationError"
      /\ exists ev,
           In ev (events r) /\ is_package_step ev = true
           /\ event_error ev = Some e).
Proof.
  intros r. subst r.
  destruct paths as [| p0 paths'].
  { rewrite saveCache_no_paths. intros _. left. eexists _, _. split; reflexivity. }
  change (wp (saveCache env (p0 :: paths') key options x) w
    (fun r =>
       outcome r = Throw e ->
       rejected r w
       \/ In (EvCompressionMethod (Throw e)) (events r)
       \/ In (EvResolvePaths (p0 :: paths') (Throw e)) (events r)
       \/ (In (EvResolvePaths (p0 :: paths') (Return [])) (events r)
           /\ err_name e = "Error")
       \/ In (EvCreateTempDirectory (Throw e)) (events r)
       \/ (err_name e = "ValidationError"
           /\ exists ev,
                In ev (events r) /\ is_package_step ev = true
                /\ event_error ev = Some e))).
  destruct (isFeatureAvailable env) eqn:Hav.
  all: unfold saveCache; wp_run; no_paths_test.
  all: intros Hthrow; try discriminate Hthrow; injection Hthrow as <-.
  all: first
    [ left; eexists _, _; split; reflexivity
    | right; left; solve [cbn [In]; auto 30]
    | right; right; left; solve [cbn [In]; auto 30]
    | right; right; right; left; split; [solve [cbn [In]; auto 30] | reflexivity]
    | right; right; right; right; left; solve [cbn [In]; auto 30]
    | right; right; right; right; right;
      match goal with
      | Hn : String.eqb (err_name ?e0) ValidationError_name = true |- _ =>
          apply String.eqb_eq in Hn; split; [exact Hn |];
          eexists; split; [pick_event | split; reflexivity]
      end ].
Qed.

(** X12: when [resolvePaths] finds none of the paths, [saveCache] throws
    the error that says so and has done nothing else: the whole run is
    the two calls and the two debug lines. *)
Theorem saveCache_nothing_to_cache env w paths key options x :
  let r := saveCache env paths key options x w in
  In (EvResolvePaths paths (Return [])) (events r) ->
  outcome r
  = Throw (Error
      "Path Validation Error: Path(s) specified in the action for caching do(es) not exist, hence no cache is being saved.")
  /\ exists m,
       events r
       = [EvCompressionMethod (Return m); EvResolvePaths paths (Return []);
          EvLog Debug "Cache Paths:"; EvLog Debug (JSON_stringify [])].
Proof.
  intros r. subst r.
  destruct paths as [| p0 paths'].
  { rewrite saveCache_no_paths. intros []. }
  change (wp (saveCache env (p0 :: paths') key options x) w
    (fun r =>
       In (EvResolvePaths (p0 :: paths') (Return [])) (events r) ->
       outcome r
       = Throw (Error
           "Path Validation Error: Path(s) specified in the action for caching do(es) not exist, hence no cache is being saved.")
       /\ exists m,
            events r
            = [EvCompressionMethod (Return m);
               EvResolvePaths (p0 :: paths') (Return []);
               EvLog Debug "Cache Paths:"; EvLog Debug (JSON_stringify [])])).
  destruct (isFeatureAvailable env) eqn:Hav.
  all: unfold saveCache; wp_run.
  all: intros Hin; in_events Hin; injection Hin as ->; no_paths_test.
  all: split; [reflexivity | eexists; reflexivity].
Qed.

(** X13: [saveCache] writes where [restoreCache] looks.  With the same
    environment and key, the directory it makes is the parent of the
    address that [restoreCache] stats, and what it copies goes from the
    archive in its temporary directory to that address.  It never stats
    the store: an entry that is there is written over. *)
Theorem save_and_restore_agree_on_address env w w' paths paths' key restoreKeys
    options options' x x' :
  let s := saveCache env paths key options x w in
  let r := restoreCache env paths' key restoreKeys options' x' w' in
  (forall p o, ~ In (EvStat p o) (events s))
  /\ (forall d o, In (EvMkdir d o) (events s) ->
                  d = path_dirname (cache_address env key))
  /\ (forall src dst o,
        In (EvCopyFile src dst o) (events s) ->
        dst = cache_address env key
        /\ exists tmp m,
             In (EvCreateTempDirectory (Return tmp)) (events s)
             /\ In (EvCompressionMethod (Return m)) (events s)
             /\ src = path_join [tmp; utils_getCacheFileName m])
  /\ (forall p o, In (EvStat p o) (events r) -> p = cache_address env key).
Proof.
  intros s r. subst s r.
  split; [| split; [| split]];
    [ | | | apply (restoreCache_probes_primary_key_only env w' paths' key) ].
  all: destruct paths as [| p0 paths'0];
    [ rewrite saveCache_no_paths; intros ? ? ?; try intros ?; contradiction |].
  - change (wp (saveCache env (p0 :: paths'0) key options x) w
              (fun s => forall p o, ~ In (EvStat p o) (events s))).
    destruct (isFeatureAvailable env) eqn:Hav.
    all: unfold saveCache; wp_run.
    all: intros p o Hin; in_events Hin.
  - change (wp (saveCache env (p0 :: paths'0) key options x) w
              (fun s => forall d o, In (EvMkdir d o) (events s) ->
                                    d = path_dirname (cache_address env key))).
    unfold cache_address.
    destruct (isFeatureAvailable env) eqn:Hav.
    all: unfold saveCache; wp_run; cbn [js_show].
    all: intros d o Hin; in_events Hin; injection Hin as <- <-; reflexivity.
  - change (wp (saveCache env (p0 :: paths'0) key options x) w
      (fun s =>
         forall src dst o,
           In (EvCopyFile src dst o) (events s) ->
           dst = cache_address env key
           /\ exists tmp m,
                In (EvCreateTempDirectory (Return tmp)) (events s)
                /\ In (EvCompressionMethod (Return m)) (events s)
                /\ src = path_join [tmp; utils_getCacheFileName m])).
    unfold cache_address.
    destruct (isFeatureAvailable env) eqn:Hav.
    all: unfold saveCache; wp_run; cbn [js_show].
    all: intros src dst o Hin; in_events Hin; injection Hin as <- <- <-.
    all: split; [reflexivity |].
    all: eexists _, _; cbn [In]; split; [| split]; [auto 30 | auto 30 | reflexivity].
Qed.

(** X14: [backend.saveCache] never throws.  It copies only after
    [fs.mkdir] has made the parent of the destination, and whatever
    [fs.mkdir] or [fs.copyFile] throws ends up in a warning.  Without a
    cache directory it does nothing but log that. *)
Theorem backend_saveCache_never_throws env w key archivePath :
  let r := backend_saveCache env key archivePath w in
  outcome r = Return tt
  /\ (forall src dst o,
        In (EvCopyFile src dst o) (events r) ->
        exists dir, In (EvMkdir (path_dirname dst) (Return dir)) (events r))
  /\ (forall ev e,
        In ev (events r) -> event_error ev = Some e ->
        In (EvLog Warning ("saveCache: failed to save archive: " +:+ js_toString e))
           (events r))
  /\ (isFeatureAvailable env = false ->
      final r = w
      /\ events r = [EvLog Warning "getArchiveLocation: cache not available"]).
Proof.
  intros r. subst r.
  change (wp (backend_saveCache env key archivePath) w
    (fun r =>
       outcome r = Return tt
       /\ (forall src dst o,
             In (EvCopyFile src dst o) (events r) ->
             exists dir, In (EvMkdir (path_dirname dst) (Return dir)) (events r))
       /\ (forall ev e,
             In ev (events r) -> event_error ev = Some e ->
             In (EvLog Warning
                   ("saveCache: failed to save archive: " +:+ js_toString e))
                (events r))
       /\ (isFeatureAvailable env = false ->
           final r = w
           /\ events r = [EvLog Warning "getArchiveLocation: cache not available"]))).
  destruct (isFeatureAvailable env) eqn:Hav.
  all: wp_run; units.
  all: split; [reflexivity |].
  all: split;
    [ intros src dst o Hin; in_events Hin; injection Hin as <- <- <-;
      eexists; cbn [In]; auto 10 |].
  all: split;
    [ intros ev err Hin Herr; some_event Hin; cbn [event_error] in Herr;
      try discriminate Herr; injection Herr as <-; cbn [In]; auto 10 |].
  all: intros Hoff; first [discriminate Hoff | split; reflexivity].
Qed.

(** X15: the archive is listed only in debug mode, by [restoreCache] and
    by [saveCache] alike. *)
Theorem listTar_only_in_debug env w :
  (forall paths primaryKey restoreKeys options x p m o,
     In (EvListTar p m o)
        (events (restoreCache env paths primaryKey restoreKeys options x w)) ->
     core_isDebug env = true)
  /\ (forall paths key options x p m o,
        In (EvListTar p m o) (events (saveCache env paths key options x w)) ->
        core_isDebug env = true).
Proof.
  split.
  - intros paths primaryKey restoreKeys options x p m o.
    destruct paths as [| p0 paths'].
    { rewrite restoreCache_no_paths. intros []. }
    change (wp (restoreCache env (p0 :: paths') primaryKey restoreKeys options x) w
      (fun r => In (EvListTar p m o) (events r) -> core_isDebug env = true)).
    destruct (isFeatureAvailable env) eqn:Hav.
    all: unfold restoreCache; wp_run.
    all: intros Hin; in_events Hin; assumption.
  - intros paths key options x p m o.
    destruct paths as [| p0 paths'].
    { rewrite saveCache_no_paths. intros []. }
    change (wp (saveCache env (p0 :: paths') key options x) w
      (fun r => In (EvListTar p m o) (events r) -> core_isDebug env = true)).
    destruct (isFeatureAvailable env) eqn:Hav.
    all: unfold saveCache; wp_run.
    all: intros Hin; in_events Hin; assumption.
Qed.

(** X16: with a cache directory configured, an archive measured at no
    more than 10 GiB, the limit itself included, is taken to the store:
    [saveCache] makes the parent directory of the key's address, and once
    that is made it copies the archive to the address. *)
Theorem saveCache_within_limit_reaches_store env w paths key options x ap sz :
  let r := saveCache env paths key options x w in
  isFeatureAvailable env = true ->
  In (EvArchiveSize ap (Return sz)) (events r) ->
  sz <= CacheFileSizeLimit ->
  exists o,
    In (EvMkdir (path_dirname (cache_address env key)) o) (events r)
    /\ forall dir,
         o = Return dir ->
         exists o', In (EvCopyFile ap (cache_address env key) o') (events r).
Proof.
  intros r Hav. subst r. revert ap sz.
  destruct paths as [| p0 paths'].
  { rewrite saveCache_no_paths. intros ap sz []. }
  change (wp (saveCache env (p0 :: paths') key options x) w
    (fun r =>
       forall ap sz,
         In (EvArchiveSize ap (Return sz)) (events r) ->
         sz <= CacheFileSizeLimit ->
         exists o,
           In (EvMkdir (path_dirname (cache_address env key)) o) (events r)
           /\ forall dir,
                o = Return dir ->
                exists o', In (EvCopyFile ap (cache_address env key) o') (events r))).
  unfold cache_address.
  unfold saveCache; wp_run; cbn [js_show].
  all: intros ap sz Hin Hsmall; in_events Hin; injection Hin as <- <-.
  all: try size_test.
  all: eexists; split; [cbn [In]; auto 30 |].
  all: intros dir Hdir; try discriminate Hdir.
  all: eexists; cbn [In]; auto 30.
Qed.

End SavingMore.

(* ===================================================================== *)
(** ** Further properties: keys, lookups and the one archive *)
(* ===================================================================== *)

Section KeysAndLookups.

Context {W : Type} {H : Host W}.
Implicit Types (w : W) (env : ProcessEnv).

Lemma for_of_checkKey_first_invalid (good : list string) (bad : string)
    (rest : list string) w :
  Forall (fun k => ~ invalid_key k) good ->
  for_of (W:=W) (good ++ bad :: rest) (fun k => lift (checkKey k)) w
  = match checkKey bad with
    | Return _ => for_of rest (fun k => lift (checkKey k)) w
    | Throw e => MkRun (Throw e) w []
    end.
Proof.
  induction 1 as [| k good Hk _ IH]; cbn [app].
  - apply for_of_checkKey_cons.
  - rewrite for_of_checkKey_cons, (checkKey_valid k Hk). exact IH.
Qed.

(** X18: which error [restoreCache] reports when paths are given.  More
    than ten keys are reported as such, whatever the keys are; among at
    most ten keys, the error is that of the first key that fails
    [checkKey], in the order primary key, restore keys. *)
Theorem restoreCache_reports_first_failure env w p paths primaryKey restoreKeys
    options x :
  let keys := primaryKey :: default [] restoreKeys in
  let r := restoreCache env (p :: paths) primaryKey restoreKeys options x w in
  ((10 < length keys)%nat ->
   outcome r
   = Throw (ValidationError
       "Key Validation Error: Keys are limited to a maximum of 10."))
  /\ ((length keys <= 10)%nat ->
      forall good bad rest,
        keys = good ++ bad :: rest ->
        Forall (fun k => ~ invalid_key k) good ->
        invalid_key bad ->
        exists e, checkKey bad = Throw e /\ outcome r = Throw e).
Proof.
  intros keys r. subst keys r. split.
  - intros Hlen. apply Nat.ltb_lt in Hlen.
    change (wp (restoreCache env (p :: paths) primaryKey restoreKeys options x) w
      (fun r =>
         outcome r
         = Throw (ValidationError
             "Key Validation Error: Keys are limited to a maximum of 10."))).
    unfold restoreCache. wp_run. reflexivity.
  - intros Hlen good bad rest Hkeys Hgood Hbad.
    apply Nat.ltb_ge in Hlen.
    destruct (checkKey_invalid bad Hbad) as [msg Hmsg].
    exists (ValidationError msg). split; [exact Hmsg |].
    assert (Hrun : for_of (W:=W) (primaryKey :: default [] restoreKeys)
                     (fun k => lift (checkKey k)) w
                   = MkRun (Throw (ValidationError msg)) w []).
    { rewrite Hkeys, (for_of_checkKey_first_invalid good bad rest w Hgood), Hmsg.
      reflexivity. }
    change (wp (restoreCache env (p :: paths) primaryKey restoreKeys options x) w
      (fun r => outcome r = Throw (ValidationError msg))).
    unfold restoreCache. do 8 wp_step.
    eapply wp_known; [exact Hrun |]. reflexivity.
Qed.

(** X19: [getCacheFile] only looks: with a cache directory configured its
    one call is the [fs.stat] of the key's address, and without one it
    makes no call at all and leaves the world as it is. *)
Theorem getCacheFile_only_stats env w (key : string) :
  let r := getCacheFile env key w in
  let addr := cache_address env key in
  List.filter (fun e => negb (is_log e)) (events r)
  = (if isFeatureAvailable env then [EvStat addr (fst (fs_stat addr w))] else [])
  /\ final r = (if isFeatureAvailable env then snd (fs_stat addr w) else w).
Proof.
  intros r addr. subst r addr.
  destruct (isFeatureAvailable env) eqn:Hav.
  - destruct (getCacheFile_on env w key Hav) as (o & w' & evs & Hstat & Hrun & Hlogs).
    rewrite Hrun, Hstat. cbn [events final fst snd List.filter is_log negb].
    split; [| reflexivity]. f_equal.
    unfold only_logs in Hlogs. clear - Hlogs.
    induction evs as [| e evs IH]; [reflexivity |].
    cbn [forallb] in Hlogs. apply andb_prop in Hlogs. destruct Hlogs as [He Hevs].
    cbn [List.filter]. rewrite He. cbn [negb]. exact (IH Hevs).
  - rewrite (getCacheFile_off env w key Hav). split; reflexivity.
Qed.

(** X20: [saveCache] packages what [resolvePaths] returned, never the
    paths as given and never an empty list, into the temporary directory
    it has just been given, with the method [getCompressionMethod]
    chose. *)
Theorem saveCache_packages_resolved_paths env w paths key options x folder
    cachePaths m o :
  let r := saveCache env paths key options x w in
  In (EvCreateTar folder cachePaths m o) (events r) ->
  cachePaths <> []
  /\ In (EvResolvePaths paths (Return cachePaths)) (events r)
  /\ In (EvCreateTempDirectory (Return folder)) (events r)
  /\ In (EvCompressionMethod (Return m)) (events r).
Proof.
  intros r. subst r.
  destruct paths as [| p0 paths'].
  { rewrite saveCache_no_paths. intros []. }
  change (wp (saveCache env (p0 :: paths') key options x) w
    (fun r =>
       In (EvCreateTar folder cachePaths m o) (events r) ->
       cachePaths <> []
       /\ In (EvResolvePaths (p0 :: paths') (Return cachePaths)) (events r)
       /\ In (EvCreateTempDirectory (Return folder)) (events r)
       /\ In (EvCompressionMethod (Return m)) (events r))).
  destruct (isFeatureAvailable env) eqn:Hav.
  all: unfold saveCache; wp_run.
  all: intros Hin; in_events Hin; injection Hin as <- <- <- <-.
  all: split; [intros ->; no_paths_test |].
  all: cbn [In]; auto 30.
Qed.

(** X21: [saveCache] works on one archive: what it lists, measures,
    copies to the store and deletes is the file named by
    [getCacheFileName] in the temporary directory it packaged into. *)
Theorem saveCache_one_archive env w paths key options x ap :
  let r := saveCache env paths key options x w in
  (exists m o, In (EvListTar ap m o) (events r))
  \/ (exists o, In (EvArchiveSize ap o) (events r))
  \/ (exists dst o, In (EvCopyFile ap dst o) (events r))
  \/ (exists o, In (EvUnlink ap o) (events r)) ->
  exists folder m,
    In (EvCreateTempDirectory (Return folder)) (events r)
    /\ In (EvCompressionMethod (Return m)) (events r)
    /\ ap = path_join [folder; utils_getCacheFileName m].
Proof.
  intros r. subst r.
  destruct paths as [| p0 paths'].
  { rewrite saveCache_no_paths.
    intros [(m & o & []) | [(o & []) | [(dst & o & []) | (o & [])]]]. }
  change (wp (saveCache env (p0 :: paths') key options x) w
    (fun r =>
       (exists m o, In (EvListTar ap m o) (events r))
       \/ (exists o, In (EvArchiveSize ap o) (events r))
       \/ (exists dst o, In (EvCopyFile ap dst o) (events r))
       \/ (exists o, In (EvUnlink ap o) (events r)) ->
       exists folder m,
         In (EvCreateTempDirectory (Return folder)) (events r)
         /\ In (EvCompressionMethod (Return m)) (events r)
         /\ ap = path_join [folder; utils_getCacheFileName m])).
  destruct (isFeatureAvailable env) eqn:Hav.
  all: unfold saveCache; wp_run.
  all: intros [(m & o & Hin) | [(o & Hin) | [(dst & o & Hin) | (o & Hin)]]];
    in_events Hin; injection Hin; intros; subst.
  all: eexists _, _; cbn [In]; split; [| split]; [auto 30 | auto 30 | reflexivity].
Qed.

(** X22: [restoreCache] works on one archive: what it measures, lists,
    extracts and deletes is the file it copied the entry to, named by
    [getCacheFileName] in its temporary directory. *)
Theorem restoreCache_one_archive env w paths primaryKey restoreKeys options x ap :
  let r := restoreCache env paths primaryKey restoreKeys options x w in
  (exists o, In (EvArchiveSize ap o) (events r))
  \/ (exists m o, In (EvListTar ap m o) (events r))
  \/ (exists m o, In (EvExtractTar ap m o) (events r))
  \/ (exists o, In (EvUnlink ap o) (events r)) ->
  exists tmp m o,
    In (EvCreateTempDirectory (Return tmp)) (events r)
    /\ In (EvCompressionMethod (Return m)) (events r)
    /\ ap = path_join [tmp; utils_getCacheFileName m]
    /\ In (EvCopyFile (cache_address env primaryKey) ap o) (events r).
Proof.
  intros r. subst r.
  destruct paths as [| p0 paths'].
  { rewrite restoreCache_no_paths.
    intros [(o & []) | [(m & o & []) | [(m & o & []) | (o & [])]]]. }
  change (wp (restoreCache env (p0 :: paths') primaryKey restoreKeys options x) w
    (fun r =>
       (exists o, In (EvArchiveSize ap o) (events r))
       \/ (exists m o, In (EvListTar ap m o) (events r))
       \/ (exists m o, In (EvExtractTar ap m o) (events r))
       \/ (exists o, In (EvUnlink ap o) (events r)) ->
       exists tmp m o,
         In (EvCreateTempDirectory (Return tmp)) (events r)
         /\ In (EvCompressionMethod (Return m)) (events r)
         /\ ap = path_join [tmp; utils_getCacheFileName m]
         /\ In (EvCopyFile (cache_address env primaryKey) ap o) (events r))).
  unfold cache_address.
  destruct (isFeatureAvailable env) eqn:Hav.
  all: unfold restoreCache; wp_run; cbn [js_show].
  all: intros [(o & Hin) | [(m & o & Hin) | [(m & o & Hin) | (o & Hin)]]];
    in_events Hin; injection Hin; intros; subst.
  all: eexists _, _, _; cbn [In];
    split; [| split; [| split]]; [auto 30 | auto 30 | reflexivity | auto 30].
Qed.

End KeysAndLookups.

(* ===================================================================== *)
(** ** The two modules on the in-memory runner *)
(* ===================================================================== *)

(** Decide [In e evs] for explicit [e] and [evs]. *)
Ltac in_computed := vm_compute; repeat (first [left; reflexivity | right]).

(** *** Keys at the limits *)

Example checkKey_512_characters : checkKey (Scenario.long_key 512) = Return tt.
Proof. vm_compute. reflexivity. Qed.

Example checkKey_513_characters : is_ValidationError (checkKey (Scenario.long_key 513)).
Proof. apply checkKey_invalid. left. apply Nat.ltb_lt. vm_compute. reflexivity. Qed.

Example restoreCache_ten_keys :
  outcome (restoreCache Scenario.env_on ["./dist"] "k" (Some (Scenario.keys 9)) None
             false (Scenario.world []))
  = Return None.
Proof. vm_compute. reflexivity. Qed.

(** The address of the empty key is the directory of the scope itself. *)
Example cache_address_of_empty_key :
  cache_address Scenario.env_on "" = "/cache/octo/hello/main"
  /\ cache_address Scenario.env_on "v1" = "/cache/octo/hello/main/v1".
Proof. split; vm_compute; reflexivity. Qed.

(** A restore that hits, on a runner where the archive cannot be deleted:
    the hit stands. *)
Example restoreCache_hit_with_failed_deletion :
  outcome (restoreCache Scenario.env_on ["./dist"] "v1" (Some ["v1-"]) None false
             Scenario.undeletable)
  = Return (Some "v1").
Proof. vm_compute. reflexivity. Qed.

(** A save that works. *)
Example saveCache_stores_the_archive :
  let r := saveCache Scenario.env_on ["./dist"] "v1" None false (Scenario.world []) in
  outcome r = Return 1
  /\ Sim.files (final r) !! "/cache/octo/hello/main/v1" = Some (Sim.NFile 2048)
  /\ Sim.files (final r) !! "/tmp/a1b2/cache.tgz" = None.
Proof. vm_compute. repeat split; reflexivity. Qed.

(** *** Restore keys *)

(** C1: the store holds an entry under the restore key [v1-] and none
    under the primary key [v1].  The existence check hits on [v1-], but
    [restoreCache] asks for [v1] alone and returns [undefined]. *)
Theorem restoreCache_ignores_fallback_entry :
  let w := Scenario.world [("/cache/octo/hello/main/v1-", Sim.NFile 10)] in
  let r := restoreCache Scenario.env_on ["./dist"] "v1" (Some ["v1-"]) None false w in
  outcome (getCacheFile Scenario.env_on "v1-" w)
  = Return (Some "/cache/octo/hello/main/v1-")
  /\ outcome r = Return None
  /\ List.filter is_store_call (events r)
     = [EvStat "/cache/octo/hello/main/v1"
          (Throw (Sim.ENOENT "/cache/octo/hello/main/v1"))].
Proof. vm_compute. repeat split; reflexivity. Qed.

(** *** Saving *)

(** The capacity error does not propagate: tar produces 10 GiB and one
    byte, and [saveCache] returns -1 instead of throwing. *)
Lemma oversized_archive_error_is_swallowed :
  ~ capacity_error_propagates
      (saveCache Scenario.env_on ["./dist"] "v1" None false Scenario.oversized).
Proof.
  intros Hclaim.
  destruct (Hclaim "/tmp/a1b2/cache.tgz" (CacheFileSizeLimit + 1)) as [[e He] _].
  - in_computed.
  - vm_compute. reflexivity.
  - vm_compute in He. discriminate He.
Qed.

Lemma oversized_archive_not_saved_witness :
  let r := saveCache Scenario.env_on ["./dist"] "v1" None false Scenario.oversized in
  outcome r = Return (-1)
  /\ In (EvLog Warning
           ("Failed to save: " +:+ over_limit_message (CacheFileSizeLimit + 1)))
        (events r)
  /\ no_store_call (events r).
Proof.
  apply (oversized_archive_not_saved Scenario.env_on Scenario.oversized ["./dist"]
           "v1" None false "/tmp/a1b2/cache.tgz" (CacheFileSizeLimit + 1)).
  - in_computed.
  - vm_compute. reflexivity.
Defined.

Example over_limit_message_text :
  over_limit_message (CacheFileSizeLimit + 1)
  = "Cache size of ~10240 MB (10737418241 B) is over the 10240 MB (10737418240 B) limit, not saving cache.".
Proof. vm_compute. reflexivity. Qed.

(** C3: the store refuses the write of [v1].  [backend.saveCache] logs
    the warning and returns; [saveCache] returns 1, the id of a saved
    cache, and the store holds no entry for [v1]. *)
Theorem saveCache_reports_saved_after_failed_write :
  let r := saveCache Scenario.env_on ["./dist"] "v1" None false Scenario.read_only in
  outcome r = Return 1
  /\ List.filter is_store_write (events r)
     = [EvMkdir "/cache/octo/hello/main" (Return (Some "/cache/octo/hello/main"));
        EvCopyFile "/tmp/a1b2/cache.tgz" "/cache/octo/hello/main/v1"
          (Throw (Sim.EACCES "/cache/octo/hello/main/v1"))]
  /\ In (EvLog Warning
           "saveCache: failed to save archive: Error: EACCES: permission denied '/cache/octo/hello/main/v1'")
        (events r)
  /\ Sim.files (final r) !! "/cache/octo/hello/main/v1" = None.
Proof.
  split; [vm_compute; reflexivity |].
  split; [vm_compute; reflexivity |].
  split; [in_computed | vm_compute; reflexivity].
Qed.

(** C4: no cache directory is configured.  [restoreCache] returns
    [undefined] and nothing reaches the store, but [saveCache] returns 1,
    the id of a saved cache, where nothing was saved. *)
Theorem saveCache_reports_saved_without_store :
  let w := Scenario.world [] in
  let r := saveCache Scenario.env_off ["./dist"] "v1" None false w in
  isFeatureAvailable Scenario.env_off = false
  /\ outcome r = Return 1
  /\ no_store_call (events r)
  /\ Sim.files (final r) !! "/cache/octo/hello/main/v1" = None
  /\ outcome (restoreCache Scenario.env_off ["./dist"] "v1" None None false w)
     = Return None.
Proof. vm_compute. repeat split; reflexivity. Qed.

(** *** Instances of the general statements *)

Lemma invalid_key_rejected_witness :
  let w := Scenario.world [] in
  (let r := restoreCache Scenario.env_on ["./dist"] "v1" (Some ["a,b"]) None false w in
   is_ValidationError (outcome r) /\ no_store_call (events r) /\ final r = w)
  /\ (let r := saveCache Scenario.env_on ["./dist"] "a,b" None false w in
      is_ValidationError (outcome r) /\ no_store_call (events r) /\ final r = w).
Proof.
  intros w.
  destruct (invalid_key_rejected_before_storage Scenario.env_on w ["./dist"] "a,b")
    as [Hrestore Hsave].
  - right. in_computed.
  - split; [apply Hrestore; in_computed | apply Hsave].
Defined.

Lemma too_many_keys_rejected_witness :
  let w := Scenario.world [("/cache/octo/hello/main/k", Sim.NFile 10)] in
  let r := restoreCache Scenario.env_on ["./dist"] "k" (Some (Scenario.keys 10)) None
             false w in
  is_ValidationError (outcome r) /\ no_store_call (events r) /\ final r = w.
Proof.
  intros w.
  destruct (too_many_keys_or_no_paths_rejected Scenario.env_on w) as [Hmany _].
  apply Hmany. vm_compute. lia.
Defined.

Lemma getCacheFile_zero_length_witness :
  outcome (getCacheFile Scenario.env_on "v1"
             (Scenario.world [("/cache/octo/hello/main/v1", Sim.NFile 0)]))
  = Return None.
Proof.
  destruct (getCacheFile_hit_iff_nonempty_file Scenario.env_on
              (Scenario.world [("/cache/octo/hello/main/v1", Sim.NFile 0)]) "v1")
    as (_ & _ & Hzero & _).
  apply (Hzero (MkStats true 0)); vm_compute; reflexivity.
Defined.

Lemma temporary_archive_deleted_witness :
  (let r := restoreCache Scenario.env_on ["./dist"] "v1" None None false
              Scenario.undeletable in
   deleted_last "/tmp/a1b2/cache.tgz" (events r)
   /\ (exists v, outcome r = Return v)
   /\ exists w0 o,
        Sim.unlinkFile "/tmp/a1b2/cache.tgz" w0 = (o, final r)
        /\ In (EvUnlink "/tmp/a1b2/cache.tgz" o) (events r))
  /\ (let r := saveCache Scenario.env_on ["./dist"] "v1" None false
                 Scenario.read_only in
      deleted_last "/tmp/a1b2/cache.tgz" (events r)
      /\ exists w0 o,
           Sim.unlinkFile "/tmp/a1b2/cache.tgz" w0 = (o, final r)
           /\ In (EvUnlink "/tmp/a1b2/cache.tgz" o) (events r)).
Proof.
  split.
  - destruct (temporary_archive_always_deleted Scenario.env_on Scenario.undeletable)
      as (Hrestore & _).
    apply (Hrestore ["./dist"] "v1" None None false Gzip "/tmp/a1b2"); in_computed.
  - destruct (temporary_archive_always_deleted Scenario.env_on Scenario.read_only)
      as (_ & Hsave & _).
    apply (Hsave ["./dist"] "v1" None false Gzip "/tmp/a1b2"); in_computed.
Defined.

(** After a save whose deletion works, the archive is gone from the
    temporary directory; after a restore whose deletion fails, it is
    still there. *)
Example temporary_archive_in_the_final_world :
  Sim.files (final (saveCache Scenario.env_on ["./dist"] "v1" None false
                      Scenario.read_only)) !! "/tmp/a1b2/cache.tgz" = None
  /\ Sim.files (final (restoreCache Scenario.env_on ["./dist"] "v1" None None false
                         Scenario.undeletable)) !! "/tmp/a1b2/cache.tgz"
     = Some (Sim.NFile 10).
Proof. split; vm_compute; reflexivity. Qed.


Lemma feature_unavailable_witness :
  let w := Scenario.world [("/cache/octo/hello/main/v1", Sim.NFile 10)] in
  outcome (restoreCache Scenario.env_off ["./dist"] "v1" None None false w)
  = Return None
  /\ no_store_call (events (saveCache Scenario.env_off ["./dist"] "v1" None false w)).
Proof.
  intros w.
  destruct (feature_available_iff_location Scenario.env_off w) as (_ & _ & Hoff).
  destruct Hoff as [Hrestore Hsave]; [vm_compute; reflexivity |].
  split; [| apply Hsave].
  apply (Hrestore ["./dist"] "v1" None None false).
  - discriminate.
  - vm_compute. lia.
  - constructor; [| constructor].
    intros [Hlen | Hcomma];
      [cbn in Hlen; lia | vm_compute in Hcomma; intuition discriminate].
Defined.

(** *** Instances of the further properties *)



Lemma restoreCache_throws_only_witness :
  let e := ValidationError "Key Validation Error: a,b cannot contain commas." in
  let r := restoreCache Scenario.env_on ["./dist"] "a,b" None None false
             (Scenario.world []) in
  rejected r (Scenario.world [])
  \/ In (EvCompressionMethod (Throw e)) (events r)
  \/ In (EvCreateTempDirectory (Throw e)) (events r).
Proof.
  apply (restoreCache_throws_only Scenario.env_on (Scenario.world []) ["./dist"] "a,b"
           None None false).
  vm_compute. reflexivity.
Defined.

Lemma restoreCache_transfer_failure_witness :
  let r := restoreCache Scenario.env_on ["./dist"] "v1" None None false
             Cases.no_room in
  outcome r = Return None
  /\ In (EvLog Warning
           ("Failed to restore: "
            +:+ err_message (Sim.EACCES "/tmp/a1b2/cache.tgz")))
        (events r).
Proof.
  apply (restoreCache_transfer_failure_is_a_miss Scenario.env_on Cases.no_room
           ["./dist"] "v1" None None false
           (EvCopyFile "/cache/octo/hello/main/v1" "/tmp/a1b2/cache.tgz"
              (Throw (Sim.EACCES "/tmp/a1b2/cache.tgz")))).
  - in_computed.
  - reflexivity.
  - reflexivity.
Defined.

Lemma saveCache_not_saved_is_warned_witness :
  let r := saveCache Scenario.env_on ["./dist"] "v1" None false Scenario.oversized in
  (-1 = 1)
  \/ (-1 = -1
      /\ exists msg, In (EvLog Warning ("Failed to save: " +:+ msg)) (events r)).
Proof.
  apply (saveCache_not_saved_is_warned Scenario.env_on Scenario.oversized ["./dist"]
           "v1" None false (-1)).
  vm_compute. reflexivity.
Defined.

Lemma saveCache_throws_only_witness :
  let e := Cases.nothing_to_cache in
  let r := saveCache Scenario.env_on ["./missing"] "v1" None false (Scenario.world []) in
  rejected r (Scenario.world [])
  \/ In (EvCompressionMethod (Throw e)) (events r)
  \/ In (EvResolvePaths ["./missing"] (Throw e)) (events r)
  \/ (In (EvResolvePaths ["./missing"] (Return [])) (events r) /\ err_name e = "Error")
  \/ In (EvCreateTempDirectory (Throw e)) (events r)
  \/ (err_name e = "ValidationError"
      /\ exists ev,
           In ev (events r) /\ is_package_step ev = true
           /\ event_error ev = Some e).
Proof.
  apply (saveCache_throws_only Scenario.env_on (Scenario.world []) ["./missing"] "v1"
           None false Cases.nothing_to_cache).
  vm_compute. reflexivity.
Defined.

Lemma saveCache_nothing_to_cache_witness :
  let r := saveCache Scenario.env_on ["./missing"] "v1" None false (Scenario.world []) in
  outcome r = Throw Cases.nothing_to_cache
  /\ exists m,
       events r
       = [EvCompressionMethod (Return m); EvResolvePaths ["./missing"] (Return []);
          EvLog Debug "Cache Paths:"; EvLog Debug (JSON_stringify [])].
Proof.
  apply (saveCache_nothing_to_cache Scenario.env_on (Scenario.world []) ["./missing"]
           "v1" None false).
  in_computed.
Defined.

Lemma saveCache_within_limit_witness :
  let r := saveCache Scenario.env_on ["./dist"] "v1" None false (Scenario.world []) in
  exists o,
    In (EvMkdir (path_dirname (cache_address Scenario.env_on "v1")) o) (events r)
    /\ forall dir,
         o = Return dir ->
         exists o',
           In (EvCopyFile "/tmp/a1b2/cache.tgz" (cache_address Scenario.env_on "v1") o')
              (events r).
Proof.
  apply (saveCache_within_limit_reaches_store Scenario.env_on (Scenario.world [])
           ["./dist"] "v1" None false "/tmp/a1b2/cache.tgz" 2048).
  - vm_compute. reflexivity.
  - in_computed.
  - vm_compute. discriminate.
Defined.

Lemma saveCache_packages_resolved_paths_witness :
  let r := saveCache Scenario.env_on ["./dist"; "./missing"] "v1" None false
             (Scenario.world []) in
  ["./dist"] <> []
  /\ In (EvResolvePaths ["./dist"; "./missing"] (Return ["./dist"])) (events r)
  /\ In (EvCreateTempDirectory (Return "/tmp/a1b2")) (events r)
  /\ In (EvCompressionMethod (Return Gzip)) (events r).
Proof.
  apply (saveCache_packages_resolved_paths Scenario.env_on (Scenario.world [])
           ["./dist"; "./missing"] "v1" None false "/tmp/a1b2" ["./dist"] Gzip
           (Return tt)).
  in_computed.
Defined.

Lemma saveCache_one_archive_witness :
  let r := saveCache Scenario.env_on ["./dist"] "v1" None false (Scenario.world []) in
  exists folder m,
    In (EvCreateTempDirectory (Return folder)) (events r)
    /\ In (EvCompressionMethod (Return m)) (events r)
    /\ "/tmp/a1b2/cache.tgz" = path_join [folder; utils_getCacheFileName m].
Proof.
  apply (saveCache_one_archive Scenario.env_on (Scenario.world []) ["./dist"] "v1"
           None false "/tmp/a1b2/cache.tgz").
  right. right. right. exists (Return tt). in_computed.
Defined.

Lemma restoreCache_one_archive_witness :
  let r := restoreCache Scenario.env_on ["./dist"] "v1" None None false Cases.stored in
  exists tmp m o,
    In (EvCreateTempDirectory (Return tmp)) (events r)
    /\ In (EvCompressionMethod (Return m)) (events r)
    /\ "/tmp/a1b2/cache.tgz" = path_join [tmp; utils_getCacheFileName m]
    /\ In (EvCopyFile (cache_address Scenario.env_on "v1") "/tmp/a1b2/cache.tgz" o)
          (events r).
Proof.
  apply (restoreCache_one_archive Scenario.env_on Cases.stored ["./dist"] "v1" None
           None false "/tmp/a1b2/cache.tgz").
  right. right. left. exists Gzip, (Return tt). in_computed.
Defined.
